(** * JSON question/answer validator: a shallow embedding of [chatbot_setup.py]

    The development follows the Python module function by function:
    field mapping, prompt construction, the validation call
    ([call_openai]), the per-record validator ([validate_record]), the
    per-field translator ([gpt_translate_text]) and the thread-pool batch
    runner ([process_records_parallel]); then their caller, the processing
    block and the summary of [app.py].

    Conventions.
    - JSON values are the inductive [value]; a Python [dict] is an
      insertion-ordered association list whose keys are pairwise distinct
      ([dict_wf]); [d[k] = v] is [dict_set] (overwrite in place, else
      append).
    - Python exceptions are values of [exn]; a computation that may raise
      has a result in [res].  Code that talks to the chat-completion
      service threads an explicit [World] and keeps it when it raises.
    - What lives outside the repository (the OpenAI client, [json],
      [json5], [unicodedata], [str] methods that depend on the Unicode
      tables, [time.sleep]) is the interface [Runtime]; every theorem holds
      for every implementation of it.  [Scripted] is one implementation,
      used to run the code on concrete inputs.
    - Console diagnostics ([print]) are not modelled. *)

From Stdlib Require Import String Ascii ZArith QArith SpecFloat.
From stdpp Require Import base list.

Local Open Scope list_scope.
Local Open Scope string_scope.
Local Set Warnings "-register-all".

(** ** Python data *)

Inductive value : Type :=
| VNull
| VBool (b : bool)
| VInt (z : Z)
| VFloat (f : spec_float)
| VStr (s : string)
| VList (l : list value)
| VDict (d : list (string * value)).

Abbreviation dict := (list (string * value)).

(** [bool(v)] *)
Definition truthy (v : value) : bool :=
  match v with
  | VNull => false
  | VBool b => b
  | VInt z => negb (z =? 0)%Z
  | VFloat (S754_zero _) => false
  | VFloat _ => true
  | VStr "" => false
  | VStr _ => true
  | VList [] => false
  | VList _ => true
  | VDict [] => false
  | VDict _ => true
  end.

(** [isinstance(v, dict)] *)
Definition is_dict (v : value) : bool :=
  match v with VDict _ => true | _ => false end.

Section Assoc.
Context {V : Type}.

(** [d.get(k)], [None] when the key is absent *)
Fixpoint dict_get (k : string) (d : list (string * V)) : option V :=
  match d with
  | [] => None
  | (k', v) :: rest => if String.eqb k k' then Some v else dict_get k rest
  end.

(** [d[k] = v]: an existing key keeps its position *)
Fixpoint dict_set (k : string) (v : V) (d : list (string * V))
  : list (string * V) :=
  match d with
  | [] => [(k, v)]
  | (k', v') :: rest =>
      if String.eqb k k' then (k', v) :: rest
      else (k', v') :: dict_set k v rest
  end.

Definition dict_keys (d : list (string * V)) : list string := map fst d.

(** keys of a Python dict are pairwise distinct *)
Definition dict_wf (d : list (string * V)) : Prop := NoDup (dict_keys d).
End Assoc.

#[local] Instance string_eq_decision : EqDecision string := String.string_dec.

(** [d.get(k, default)] *)
Definition dict_get_default (k : string) (dflt : value) (d : dict) : value :=
  match dict_get k d with Some v => v | None => dflt end.

(** ** Strings *)

Definition dq : string := String (ascii_of_nat 34) EmptyString.
Definition nl : string := String (ascii_of_nat 10) EmptyString.

Fixpoint str_prefix (p s : string) : bool :=
  match p with
  | EmptyString => true
  | String a p' =>
      match s with
      | EmptyString => false
      | String b s' => if Ascii.eqb a b then str_prefix p' s' else false
      end
  end.

(** [p in s] *)
Fixpoint str_contains (p s : string) : bool :=
  if str_prefix p s then true
  else match s with
       | EmptyString => false
       | String _ s' => str_contains p s'
       end.

(** [s.find(c)] for a one-character needle; [None] is Python's [-1] *)
Fixpoint str_find (c : ascii) (s : string) : option nat :=
  match s with
  | EmptyString => None
  | String a s' =>
      if Ascii.eqb a c then Some 0
      else match str_find c s' with
           | Some i => Some (S i)
           | None => None
           end
  end.

(** [s.rfind(c)] *)
Fixpoint str_rfind (c : ascii) (s : string) : option nat :=
  match s with
  | EmptyString => None
  | String a s' =>
      match str_rfind c s' with
      | Some i => Some (S i)
      | None => if Ascii.eqb a c then Some 0 else None
      end
  end.

(** ** Exceptions and results *)

Inductive exn : Type :=
| RateLimitError (msg : string)            (* openai.RateLimitError *)
| AuthenticationError (msg : string)       (* openai.AuthenticationError *)
| JSONDecodeError (msg : string)           (* json.JSONDecodeError *)
| AttributeError (msg : string)
| KeyError (msg : string)
| ValueError (msg : string)
| QuotaExceededException (message : string)
| OtherException (msg : string).           (* any other [Exception] *)

(** [str(e)] *)
Definition exn_str (e : exn) : string :=
  match e with
  | RateLimitError m | AuthenticationError m | JSONDecodeError m
  | AttributeError m | KeyError m | ValueError m
  | QuotaExceededException m | OtherException m => m
  end.

Inductive res (A : Type) : Type :=
| Ret (a : A)
| Raise (e : exn).
Arguments Ret {A} a.
Arguments Raise {A} e.

(** ** The chat-completion request *)

Record message := Message { role : string; content : string }.

Record request := Request {
  model : string;
  temperature : Q;
  messages : list message;
  max_tokens : Z
}.

(** ** What the module imports *)

Class Runtime := {
  World : Type;
  (** [client.chat.completions.create(...)] followed by
      [response.choices[0].message.content]: the text ([None] is allowed by
      the client library) or the exception raised on the way *)
  chat_create : request -> World -> res (option string) * World;
  (** [time.sleep(seconds)] *)
  sleep : Z -> World -> World;
  (** [json.loads]: the parsed value, or the message of the
      [JSONDecodeError] *)
  json_loads : string -> value + string;
  (** [json5.loads]: the parsed value, or the message of the [ValueError]
      the lenient parser raises *)
  json5_loads : string -> value + string;
  (** [str.lower], [str.strip], [unicodedata.normalize("NFKC", _)] *)
  str_lower : string -> string;
  str_strip : string -> string;
  nfkc : string -> string;
  (** [str(v)] of a value that is not a string, as an f-string renders it *)
  py_str_other : value -> string;
  (** [os.getenv("OPENAI_MODEL", "gpt-4-turbo")] *)
  MODEL_NAME : string
}.

(** state-and-exception computations over the world *)
Definition M `{Runtime} (A : Type) : Type := World -> res A * World.

Definition ret_m `{Runtime} {A} (a : A) : M A := fun w => (Ret a, w).

Definition bind_m `{Runtime} {A B} (c : M A) (k : A -> M B) : M B :=
  fun w =>
    match c w with
    | (Ret a, w') => k a w'
    | (Raise e, w') => (Raise e, w')
    end.

Notation "x <~ c ;; k" := (bind_m c (fun x => k))
  (at level 100, c at next level, right associativity).

(** ** The module *)

Section ChatbotSetup.
Context `{RT : Runtime}.

(** [str(v)] inside an f-string *)
Definition py_str (v : value) : string :=
  match v with VStr s => s | _ => py_str_other v end.

Definition type_name (v : value) : string :=
  match v with
  | VNull => "NoneType"
  | VBool _ => "bool"
  | VInt _ => "int"
  | VFloat _ => "float"
  | VStr _ => "str"
  | VList _ => "list"
  | VDict _ => "dict"
  end.

Definition no_attribute (v : value) (attr : string) : exn :=
  AttributeError ("'" ++ type_name v ++ "' object has no attribute '" ++ attr ++ "'").

Definition KEY_MAPS : list (string * list (string * string)) :=
  [("English",
    [("question", "Question");
     ("discipline", "Discipline");
     ("language", "Language");
     ("grade", "Grade");
     ("explanation", "Explanation");
     ("competition_name", "Competition Name");
     ("competition_year", "Competition Year");
     ("question_number", "Question Number");
     ("difficulty", "Difficulty");
     ("question_type", "Question Type");
     ("answer", "Answer")])].

Definition FALLBACK_KEYS : list (string * list string) :=
  [("question", ["Question"; "question"]);
   ("answer", ["Answer"; "answer"]);
   ("question_type", ["Question Type"; "question type"]);
   ("language", ["Language"; "language"]);
   ("discipline", ["Discipline"; "discipline"]);
   ("grade", ["Grade"; "grade"]);
   ("explanation", ["Explanation"; "explanation"]);
   ("competition_name", ["Competition Name"; "competition name"]);
   ("competition_year", ["Competition Year"; "competition year"]);
   ("question_number", ["Question Number"; "question number"]);
   ("difficulty", ["Difficulty"; "difficulty"])].

Definition normalize_key (key : string) : string :=
  nfkc (str_lower (str_strip key)).

(** [KEY_MAPS.get("English", KEY_MAPS["English"])]: the argument is not
    used; the table has the key, so the last branch is never taken *)
Definition get_key_map_for_language (language : value)
  : list (string * string) :=
  match dict_get "English" KEY_MAPS with
  | Some key_map => key_map
  | None => []
  end.

(** [{normalize_key(k): v for k, v in record.items()}] *)
Definition normalize_record (record : dict) : dict :=
  fold_left (fun acc kv => dict_set (normalize_key (fst kv)) (snd kv) acc)
            record [].

(** the loop [for k in keys: if normalize_key(k) in nr: ...; break]:
    the value under the first spelling that is present *)
Fixpoint first_present (keys : list string) (normalized_record : dict)
  : option value :=
  match keys with
  | [] => None
  | k :: rest =>
      match dict_get (normalize_key k) normalized_record with
      | Some v => Some v
      | None => first_present rest normalized_record
      end
  end.

Definition fallback_keys (eng_key : string) : list string :=
  match dict_get eng_key FALLBACK_KEYS with
  | Some alts => alts
  | None => []
  end.

Definition map_field (normalized_record : dict) (eng_key local_key : string)
  : value :=
  let val := dict_get_default (normalize_key local_key) (VStr "")
                              normalized_record in
  if truthy val then val
  else match first_present (fallback_keys eng_key) normalized_record with
       | Some v => v
       | None => val
       end.

Definition map_record_fields (record : dict) (key_map : list (string * string))
  : dict :=
  let normalized_record := normalize_record record in
  fold_left
    (fun mapped kl =>
       dict_set (fst kl) (map_field normalized_record (fst kl) (snd kl)) mapped)
    key_map [].

Definition base : string :=
  "You are an expert educator, grader, and language expert specializing in mathematics, physics, and theoretical subjects. "
  ++ "Your task is to evaluate the correctness of a given question and its provided answer in any language, including but not limited to English, Spanish, French, Chinese, Arabic, Russian, Hindi, and others. "
  ++ "Follow these steps precisely, regardless of the language:" ++ nl
  ++ "1. Assess the provided answer for accuracy based on the given question. Ensure to check for logical consistency, correctness in mathematical or scientific reasoning, and clarity in the language used." ++ nl
  ++ "2. If the answer is incorrect or lacks completeness, provide a detailed correction. Ensure that the **Explanation** contains the step-by-step process to solve the problem, while the **Answer** is the final, correct solution. Make sure to preserve the technical rigor and conceptual clarity while correcting, but write it in a natural, conversational tone as if you were explaining it to a student." ++ nl
  ++ "3. Identify any ambiguous language or missing information in the answer. If the question involves mathematical or scientific formulas, preserve and correct them with exact LaTeX formatting." ++ nl
  ++ "4. If needed, clarify the wording of the answer to ensure it is precise and unambiguous, without altering the meaning or changing the core content." ++ nl
  ++ "5. Consider linguistic nuances in different languages and ensure that translations or explanations respect the integrity of the original content. Adapt your reasoning style to the conventions and standards of each language used in the question and answer." ++ nl
  ++ "6. If the answer includes any mathematical or scientific symbols, LaTeX expressions, or formulas, preserve them exactly and correct only when necessary." ++ nl
  ++ "Return valid JSON ONLY, in the following format:" ++ nl
  ++ "{" ++ dq ++ "valid" ++ dq ++ ": bool, " ++ dq ++ "reason" ++ dq ++ ": str, "
  ++ dq ++ "corrected_answer" ++ dq ++ ": str or null, "
  ++ dq ++ "corrected_explanation" ++ dq ++ ": str or null}" ++ nl
  ++ "- " ++ dq ++ "valid" ++ dq ++ ": True if the answer is correct, False if it's not." ++ nl
  ++ "- " ++ dq ++ "reason" ++ dq ++ ": Provide a clear explanation of why the answer is correct or incorrect. Be as specific as possible, pointing out any errors in logic, calculation, or phrasing." ++ nl
  ++ "- " ++ dq ++ "corrected_answer" ++ dq ++ ": Provide the corrected final answer if the original answer was wrong. If the answer was correct, this should be null." ++ nl
  ++ "- " ++ dq ++ "corrected_explanation" ++ dq ++ ": Provide the corrected explanation if the original explanation was wrong. If the explanation was correct, this should be null." ++ nl
  ++ "Ensure that your reasoning is clear, concise, and well-structured. If corrections are needed, provide a complete and accurate solution. Always preserve the original intent and meaning of the answer while making corrections, but write in a natural, human-like tone as if you're talking to a student.".

(** [question_type.lower()] needs a [str] *)
Definition get_system_prompt (question_type : value) : res string :=
  match question_type with
  | VStr s =>
      let qt := str_lower s in
      if String.eqb qt "explanation" || String.eqb qt "exp" then
        Ret (base ++ " The answer should be a detailed explanation in a conversational and clear style.")
      else if String.eqb qt "short answer" || String.eqb qt "short" then
        Ret (base ++ " The answer should be concise, precise, and natural.")
      else if String.eqb qt "multiple choice" || String.eqb qt "mcq" then
        Ret (base ++ " The answer must be one of the provided options. Verify correctness in a natural, human-like manner.")
      else if String.eqb qt "true/false" || String.eqb qt "truefalse" then
        Ret (base ++ " The answer must be either 'True' or 'False', explained in a simple, human-like way.")
      else
        Ret (base ++ " The answer type is unspecified; check for correctness in a conversational style.")
  | v => Raise (no_attribute v "lower")
  end.

Definition extract_json_substring (s : string) : string :=
  match str_find "{" s, str_rfind "}" s with
  | Some start, Some end_ =>
      if (start <? end_)%nat then substring start (end_ + 1 - start) s else s
  | _, _ => s
  end.

(** ['insufficient_quota' in m.lower() or 'quota' in m.lower()] *)
Definition is_quota (error_msg : string) : bool :=
  str_contains "insufficient_quota" (str_lower error_msg)
  || str_contains "quota" (str_lower error_msg).

Definition validation_request (system_prompt prompt : string) : request :=
  {| model := MODEL_NAME;
     temperature := 8 # 10;
     messages := [Message "system" system_prompt; Message "user" prompt];
     max_tokens := 2000 |}.

(** the body of the [try] in [call_openai] *)
Definition call_openai_try (system_prompt prompt : string) : M value :=
  fun w =>
    match chat_create (validation_request system_prompt prompt) w with
    | (Raise e, w') => (Raise e, w')
    | (Ret None, w') => (Raise (no_attribute VNull "find"), w')
    | (Ret (Some raw), w') =>
        let json_text := extract_json_substring raw in
        match json_loads json_text with
        | inl result => (Ret result, w')
        | inr _ =>
            match json5_loads json_text with
            | inl result => (Ret result, w')
            | inr msg => (Raise (ValueError msg), w')
            end
        end
    end.

Definition degraded (reason : string) : value :=
  VDict [("valid", VBool false); ("reason", VStr reason);
         ("corrected_answer", VNull)].

(** the f-string of [call_openai] *)
Definition user_prompt (question answer : value) : string :=
  "Question:" ++ nl ++ py_str question ++ nl ++ nl
  ++ "Answer:" ++ nl ++ py_str answer.

Definition call_openai (question answer question_type : value) : M value :=
  fun w =>
    match get_system_prompt question_type with
    | Raise e => (Raise e, w)
    | Ret system_prompt =>
        let prompt := user_prompt question answer in
        match call_openai_try system_prompt prompt w with
        | (Ret result, w') => (Ret result, w')
        | (Raise (RateLimitError error_msg), w') =>
            if is_quota error_msg then
              (Raise (QuotaExceededException
                        ("OpenAI API quota exceeded: " ++ error_msg)), w')
            else (Ret (degraded ("Rate limit error: " ++ error_msg)), w')
        | (Raise (AuthenticationError m), w') =>
            (Ret (degraded ("Authentication error: " ++ m)), w')
        | (Raise e, w') =>
            (Ret (degraded ("OpenAI API error: " ++ exn_str e)), w')
        end
    end.

(** [key_map[k]] *)
Definition key_map_item (key_map : list (string * string)) (k : string)
  : res string :=
  match dict_get k key_map with
  | Some local_key => Ret local_key
  | None => Raise (KeyError k)
  end.

(** the [else] branch of [validate_record]: corrections, then the flag *)
Definition apply_corrections (key_map : list (string * string))
    (result new_rec : dict) : res dict :=
  let after_answer :=
    if truthy (dict_get_default "corrected_answer" VNull result) then
      match key_map_item key_map "answer", dict_get "corrected_answer" result with
      | Ret answer_key, Some corrected =>
          Ret (dict_set "explanation_status" (VStr "Answer corrected by AI.")
                        (dict_set answer_key corrected new_rec))
      | Raise e, _ => Raise e
      | _, None => Raise (KeyError "corrected_answer")
      end
    else Ret new_rec in
  match after_answer with
  | Raise e => Raise e
  | Ret new_rec1 =>
      let after_explanation :=
        if truthy (dict_get_default "corrected_explanation" VNull result) then
          match key_map_item key_map "explanation",
                dict_get "corrected_explanation" result with
          | Ret explanation_key, Some corrected =>
              Ret (dict_set explanation_key corrected new_rec1)
          | Raise e, _ => Raise e
          | _, None => Raise (KeyError "corrected_explanation")
          end
        else
          Ret (dict_set "explanation_status"
                        (VStr "Explanation is already correct.") new_rec1) in
      match after_explanation with
      | Raise e => Raise e
      | Ret new_rec2 =>
          Ret (dict_set "_validation"
                 (VDict [("valid", VBool false);
                         ("reason", dict_get_default "reason" VNull result);
                         ("corrected", VBool true)])
                 new_rec2)
      end
  end.

(** what [validate_record] does with the value [call_openai] returned *)
Definition attach_result (key_map : list (string * string))
    (record : dict) (result : value) : res dict :=
  let new_rec := record in                       (* record.copy() *)
  match result with
  | VDict result =>
      if truthy (dict_get_default "valid" (VBool false) result) then
        Ret (dict_set "explanation_status" (VStr "Answer is correct.")
               (dict_set "_validation"
                  (VDict [("valid", VBool true);
                          ("reason", dict_get_default "reason" VNull result)])
                  new_rec))
      else apply_corrections key_map result new_rec
  | v => Raise (no_attribute v "get")
  end.

(** the language a record names; ["English"] when it names none *)
Definition detect_language (record : dict) : value :=
  match first_present (fallback_keys "language") (normalize_record record) with
  | Some lang => lang
  | None => VStr "English"
  end.

Definition validate_record (record : dict) : M dict :=
  let lang := detect_language record in
  let key_map := get_key_map_for_language lang in
  let mapped := map_record_fields record key_map in
  let question := dict_get_default "question" (VStr "") mapped in
  let answer := dict_get_default "answer" (VStr "") mapped in
  let question_type := dict_get_default "question_type" (VStr "unspecified") mapped in
  fun w =>
    match call_openai question answer question_type w with
    | (Ret result, w') => (attach_result key_map record result, w')
    | (Raise e, w') => (Raise e, w')
    end.

(** the call [validate_record] makes for a record: its validation
    outcome *)
Definition model_outcome (record : dict) : M value :=
  let mapped :=
    map_record_fields record
      (get_key_map_for_language (detect_language record)) in
  call_openai (dict_get_default "question" (VStr "") mapped)
              (dict_get_default "answer" (VStr "") mapped)
              (dict_get_default "question_type" (VStr "unspecified") mapped).

(** *** Translation *)

Definition reason_request (target_language val_value : string) : request :=
  {| model := MODEL_NAME;
     temperature := 5 # 10;
     messages :=
       [Message "user"
          ("Translate the following validation reason into " ++ target_language ++ ". "
           ++ "Keep technical terms and maintain the professional tone. "
           ++ "Do not change formatting, numbers, or LaTeX." ++ nl ++ nl
           ++ "Text: " ++ val_value)];
     max_tokens := 1000 |}.

Definition field_request (target_language value : string) : request :=
  {| model := MODEL_NAME;
     temperature := 5 # 10;
     messages :=
       [Message "user"
          ("Translate the following text into " ++ target_language ++ ". "
           ++ "Do not change formatting, numbers, or LaTeX. "
           ++ "Do not translate proper nouns unless needed." ++ nl ++ nl
           ++ "Text: " ++ value)];
     max_tokens := 2000 |}.

(** the body of either [try]: the call, then [content.strip()] *)
Definition translation_try (req : request) : M string :=
  fun w =>
    match chat_create req w with
    | (Ret (Some text), w') => (Ret (str_strip text), w')
    | (Ret None, w') => (Raise (no_attribute VNull "strip"), w')
    | (Raise e, w') => (Raise e, w')
    end.

(** the [reason] entry of [_validation] (lines 205-229) *)
Definition translate_reason (target_language val_value : string) : M value :=
  fun w =>
    match translation_try (reason_request target_language val_value) w with
    | (Ret translated_reason, w') => (Ret (VStr translated_reason), w')
    | (Raise (RateLimitError error_msg), w') =>
        if is_quota error_msg then
          (Raise (QuotaExceededException
                    ("Translation quota exceeded: " ++ error_msg)), w')
        else (Ret (VStr val_value), w')
    | (Raise _, w') => (Ret (VStr val_value), w')
    end.

(** a top-level string field (lines 246-275) *)
Definition translate_value (target_language val : string) : M value :=
  fun w =>
    match translation_try (field_request target_language val) w with
    | (Ret translated_text, w') => (Ret (VStr translated_text), w')
    | (Raise (RateLimitError error_msg), w') =>
        if is_quota error_msg then
          (Raise (QuotaExceededException
                    ("Translation quota exceeded: " ++ error_msg)), w')
        else (Ret (VStr val), sleep 60 w')
    | (Raise (AuthenticationError m), w') =>
        (Raise (QuotaExceededException
                  ("Authentication error during translation: " ++ m)), w')
    | (Raise _, w') => (Ret (VStr val), w')
    end.

(** Both loops of [gpt_translate_text] have the shape
    [for k, v in items: out[k] = body(k, v)], left at the first
    exception [body] raises. *)
Fixpoint for_items (body : string -> value -> M value) (items : dict)
    (out : dict) : M dict :=
  match items with
  | [] => ret_m out
  | (k, v) :: rest =>
      x <~ body k v ;;
      for_items body rest (dict_set k x out)
  end.

(** [val_key == "reason" and isinstance(val_value, str) and val_value.strip()] *)
Definition translatable_reason (val_key : string) (val_value : value)
  : option string :=
  match val_value with
  | VStr s =>
      if String.eqb val_key "reason" && negb (String.eqb (str_strip s) "")
      then Some s else None
  | _ => None
  end.

Definition translate_validation_item (target_language val_key : string)
    (val_value : value) : M value :=
  match translatable_reason val_key val_value with
  | Some s => translate_reason target_language s
  | None => ret_m val_value
  end.

(** [for val_key, val_value in value.items(): ...] *)
Definition translate_validation (target_language : string) (items : dict)
    (translated_validation : dict) : M dict :=
  for_items (translate_validation_item target_language) items
            translated_validation.

(** [not isinstance(value, str) or value.strip() == ""] *)
Definition kept_as_is (val : value) : bool :=
  match val with
  | VStr s => String.eqb (str_strip s) ""
  | _ => true
  end.

(** one iteration of the outer loop: the value stored under [key] *)
Definition translate_item (target_language key : string) (val : value)
  : M value :=
  match String.eqb key "_validation", val with
  | true, VDict items =>
      tv <~ translate_validation target_language items [] ;;
      ret_m (VDict tv)
  | _, _ =>
      if String.eqb key "explanation_status" then ret_m val
      else if kept_as_is val then ret_m val
      else match val with
           | VStr s => translate_value target_language s
           | _ => ret_m val
           end
  end.

(** [for key, value in text_record.items(): ...] *)
Definition translate_items (target_language : string) (items : dict)
    (translated_record : dict) : M dict :=
  for_items (translate_item target_language) items translated_record.

Definition gpt_translate_text (text_record : dict) (target_language : string)
  : M dict :=
  translate_items target_language text_record [].

(** *** The batch runner *)

(** One execution of the pool: the world each worker call sees, and the
    order in which [as_completed] yields the futures. *)
Record schedule := Schedule {
  task_world : nat -> World;
  completion_order : list nat
}.

(** [executor.submit(validate_record, rec)] for each record: what
    [future.result()] gives for the future of index [i] *)
Definition submit_all (records : list dict) (task_world : nat -> World)
  : list (res dict) :=
  imap (fun i rec => fst (validate_record rec (task_world i))) records.

(** where the [as_completed] loop stands when it is left *)
Record loop_exit := LoopExit {
  partial_results : list (option dict);
  raised : option exn;
  cancel_requested : bool
}.

Fixpoint collect (futures : list (res dict)) (order : list nat)
    (results : list (option dict)) : loop_exit :=
  match order with
  | [] => LoopExit results None false
  | idx :: rest =>
      match futures !! idx with
      | Some (Ret r) => collect futures rest (<[idx := Some r]> results)
      | Some (Raise (QuotaExceededException m)) =>
          LoopExit results (Some (QuotaExceededException m)) true
      | Some (Raise e) => LoopExit results (Some e) false
      | None => collect futures rest results
      end
  end.

Definition pool_exit (records : list dict) (sched : schedule) : loop_exit :=
  collect (submit_all records (task_world sched)) (completion_order sched)
          (replicate (length records) None).

(** [results] is a local of the function: the caller gets the list from
    [return results], or the exception and nothing else *)
Definition process_records_parallel (records : list dict) (max_workers : Z)
    (sched : schedule) : res (list (option dict)) :=
  if (max_workers <=? 0)%Z then
    Raise (ValueError "max_workers must be greater than 0")
  else
    let ex := pool_exit records sched in
    match raised ex with
    | None => Ret (partial_results ex)
    | Some e => Raise e
    end.
End ChatbotSetup.

(** ** The caller: the processing block of [app.py]

    The block run by the "Start Processing" button (lines 79-138), without
    its progress display.  [st.rerun()] ends the script run; an exception
    that no handler catches ends it too. *)

Section App.
Context `{RT : Runtime}.

(** the entries of [st.session_state] the block writes *)
Record session := Session {
  quota_exceeded : option string;
  processed_data : option (list (option dict));
  processed_en_data : option (list dict)
}.

Inductive script_end : Type :=
| Completed
| Rerun
| Uncaught (e : exn).

Definition batch_size : nat := 5.

(** [range(0, total, batch_size)] *)
Definition batch_starts (total : nat) : list nat :=
  map (fun b => b * batch_size)%nat
      (seq 0 ((total + (batch_size - 1)) / batch_size)).

(** the validation loop (lines 91-103): the list built so far, and the
    exception that left the loop *)
Fixpoint validate_batches (original_data : list dict)
    (batch_sched : nat -> schedule) (starts : list nat)
    (processed : list (option dict)) : list (option dict) * option exn :=
  match starts with
  | [] => (processed, None)
  | i :: rest =>
      let batch := take batch_size (drop i original_data) in
      match process_records_parallel batch (Z.of_nat batch_size) (batch_sched i) with
      | Ret batch_results =>
          validate_batches original_data batch_sched rest
                           (processed ++ batch_results)%list
      | Raise e => (processed, Some e)
      end
  end.

(** the translation loop (lines 116-125) *)
Fixpoint translate_all (processed : list (option dict)) (processed_en : list dict)
    (w : World) : list dict * option exn * World :=
  match processed with
  | [] => (processed_en, None, w)
  | None :: _ => (processed_en, Some (no_attribute VNull "items"), w)
  | Some rec :: rest =>
      match gpt_translate_text rec "English" w with
      | (Ret translated_rec, w') =>
          translate_all rest (processed_en ++ [translated_rec])%list w'
      | (Raise e, w') => (processed_en, Some e, w')
      end
  end.

Definition start_processing (original_data : list dict)
    (batch_sched : nat -> schedule) (st : session) (w : World)
  : script_end * session * World :=
  let total := length original_data in
  match validate_batches original_data batch_sched (batch_starts total) [] with
  | (processed, Some (QuotaExceededException m)) =>
      (Rerun, Session (Some m) (Some processed) (processed_en_data st), w)
  | (_, Some e) => (Uncaught e, st, w)
  | (processed, None) =>
      match translate_all processed [] w with
      | (processed_en, None, w') =>
          (Completed,
           Session (quota_exceeded st) (Some processed) (Some processed_en), w')
      | (processed_en, Some (QuotaExceededException m), w') =>
          (Rerun, Session (Some m) (Some processed) (Some processed_en), w')
      | (_, Some e, w') =>
          (Uncaught e,
           Session (quota_exceeded st) (Some processed) (processed_en_data st), w')
      end
  end.

(** [r.get("_validation", {}).get(key, default)] (lines 151-153) *)
Definition validation_flag (r : option dict) (key : string) (dflt : value)
  : res value :=
  match r with
  | None => Raise (no_attribute VNull "get")
  | Some d =>
      match dict_get_default "_validation" (VDict []) d with
      | VDict validation => Ret (dict_get_default key dflt validation)
      | v => Raise (no_attribute v "get")
      end
  end.

(** [x is True] *)
Definition is_True (v : value) : bool :=
  match v with VBool true => true | _ => false end.

(** [sum(1 for r in processed if test(r))], left at the first exception *)
Fixpoint count_records (test : option dict -> res bool)
    (processed : list (option dict)) : res nat :=
  match processed with
  | [] => Ret 0
  | r :: rest =>
      match test r with
      | Raise e => Raise e
      | Ret b =>
          match count_records test rest with
          | Raise e => Raise e
          | Ret n => Ret (if b then S n else n)
          end
      end
  end.

Definition counts_valid (r : option dict) : res bool :=
  match validation_flag r "valid" VNull with
  | Ret v => Ret (is_True v)
  | Raise e => Raise e
  end.

Definition counts_corrected (r : option dict) : res bool :=
  match validation_flag r "corrected" VNull with
  | Ret v => Ret (is_True v)
  | Raise e => Raise e
  end.

(** [not ....get("valid", False) and not ....get("corrected", False)] *)
Definition counts_failed (r : option dict) : res bool :=
  match validation_flag r "valid" (VBool false) with
  | Raise e => Raise e
  | Ret v =>
      if truthy v then Ret false
      else match validation_flag r "corrected" (VBool false) with
           | Raise e => Raise e
           | Ret c => Ret (negb (truthy c))
           end
  end.

(** the three figures of the processing summary: valid, corrected, failed *)
Definition summary (processed : list (option dict)) : res (nat * nat * nat) :=
  match count_records counts_valid processed with
  | Raise e => Raise e
  | Ret valid =>
      match count_records counts_corrected processed with
      | Raise e => Raise e
      | Ret corrected =>
          match count_records counts_failed processed with
          | Raise e => Raise e
          | Ret failed => Ret (valid, corrected, failed)
          end
      end
  end.
End App.

(** ** Closed forms used in the statements *)

(** the [_validation] entry of the valid path *)
Definition passed (result : dict) : value :=
  VDict [("valid", VBool true);
         ("reason", dict_get_default "reason" VNull result)].

(** the [_validation] entry of the non-valid path *)
Definition flagged (result : dict) : value :=
  VDict [("valid", VBool false);
         ("reason", dict_get_default "reason" VNull result);
         ("corrected", VBool true)].

(** the record after lines 178-184, with the English key names written out *)
Definition corrected_record (result record : dict) : dict :=
  let ca := dict_get_default "corrected_answer" VNull result in
  let ce := dict_get_default "corrected_explanation" VNull result in
  let r1 := if truthy ca
            then dict_set "explanation_status" (VStr "Answer corrected by AI.")
                          (dict_set "Answer" ca record)
            else record in
  if truthy ce then dict_set "Explanation" ce r1
  else dict_set "explanation_status" (VStr "Explanation is already correct.") r1.

(** [{"Question": "2+2?", "Answer": "5", "Question Type": "short"}] *)
Definition sum_record : dict :=
  [("Question", VStr "2+2?"); ("Answer", VStr "5");
   ("Question Type", VStr "short")].

(** ** A scripted runtime

    The service answers from a script, one entry per call; the clock counts
    the time slept.  Strings are ASCII here, so [lower] and [strip] act on
    ASCII and NFKC changes nothing.  [json.loads] is given by its graph on
    the few texts the examples use and rejects every other text. *)

Module Scripted.

Record world := MkWorld {
  script : list (res (option string));
  clock : Z
}.

Definition create (_ : request) (w : world) : res (option string) * world :=
  match script w with
  | [] => (Raise (OtherException "Connection error."), w)
  | r :: rest => (r, MkWorld rest (clock w))
  end.

Definition lower_ascii (a : ascii) : ascii :=
  let n := nat_of_ascii a in
  if ((65 <=? n) && (n <=? 90))%nat then ascii_of_nat (n + 32) else a.

Fixpoint lower (s : string) : string :=
  match s with
  | EmptyString => EmptyString
  | String a s' => String (lower_ascii a) (lower s')
  end.

Definition is_space (a : ascii) : bool :=
  let n := nat_of_ascii a in
  ((n =? 32) || ((9 <=? n) && (n <=? 13)) || ((28 <=? n) && (n <=? 31)))%nat.

Fixpoint lstrip (s : string) : string :=
  match s with
  | EmptyString => EmptyString
  | String a s' => if is_space a then lstrip s' else s
  end.

Fixpoint rstrip (s : string) : string :=
  match s with
  | EmptyString => EmptyString
  | String a s' =>
      match rstrip s' with
      | EmptyString => if is_space a then EmptyString else String a EmptyString
      | t => String a t
      end
  end.

Definition strip (s : string) : string := rstrip (lstrip s).

Definition quoted (s : string) : string := dq ++ s ++ dq.

(** [{"valid": true, "reason": "ok"}] *)
Definition text_valid : string :=
  "{" ++ quoted "valid" ++ ": true, " ++ quoted "reason" ++ ": " ++ quoted "ok" ++ "}".

(** [{"valid": false, "reason": "2+2 is 4", "corrected_answer": A,
      "corrected_explanation": null}] *)
Definition text_fix (corrected_answer : string) : string :=
  "{" ++ quoted "valid" ++ ": false, "
  ++ quoted "reason" ++ ": " ++ quoted "2+2 is 4" ++ ", "
  ++ quoted "corrected_answer" ++ ": " ++ quoted corrected_answer ++ ", "
  ++ quoted "corrected_explanation" ++ ": null}".

Definition value_fix (corrected_answer : string) : value :=
  VDict [("valid", VBool false); ("reason", VStr "2+2 is 4");
         ("corrected_answer", VStr corrected_answer);
         ("corrected_explanation", VNull)].

(** [{"valid": false, "reason": "unclear"}] *)
Definition text_flagged : string :=
  "{" ++ quoted "valid" ++ ": false, " ++ quoted "reason" ++ ": " ++ quoted "unclear" ++ "}".

(** [{"valid": false, "reason": "steps", "corrected_explanation": "2+2=4"}] *)
Definition text_explained : string :=
  "{" ++ quoted "valid" ++ ": false, " ++ quoted "reason" ++ ": " ++ quoted "steps" ++ ", "
  ++ quoted "corrected_explanation" ++ ": " ++ quoted "2+2=4" ++ "}".

Definition loads_graph : list (string * value) :=
  [(text_valid, VDict [("valid", VBool true); ("reason", VStr "ok")]);
   (text_fix "4", value_fix "4");
   (text_fix "5", value_fix "5");
   (text_fix "", value_fix "");
   (text_flagged, VDict [("valid", VBool false); ("reason", VStr "unclear")]);
   (text_explained,
    VDict [("valid", VBool false); ("reason", VStr "steps");
           ("corrected_explanation", VStr "2+2=4")]);
   ("[]", VList []);
   ("null", VNull)].

Definition loads (s : string) : value + string :=
  match dict_get s loads_graph with
  | Some v => inl v
  | None => inr "Expecting value: line 1 column 1 (char 0)"
  end.

Definition loads5 (s : string) : value + string :=
  match dict_get s loads_graph with
  | Some v => inl v
  | None => inr "Unexpected input"
  end.

#[export] Instance runtime : Runtime := {|
  World := world;
  chat_create := create;
  sleep := fun seconds w => MkWorld (script w) (clock w + seconds);
  json_loads := loads;
  json5_loads := loads5;
  str_lower := lower;
  str_strip := strip;
  nfkc := fun s => s;
  py_str_other := type_name;
  MODEL_NAME := "gpt-4-turbo"
|}.

Definition start (answers : list (res (option string))) : world :=
  MkWorld answers 0.

(** the functions of the module, run against a script *)
Definition outcome (record : dict) (answers : list (res (option string)))
  : res value * world :=
  model_outcome record (start answers).

Definition validate (record : dict) (answers : list (res (option string)))
  : res dict * world :=
  validate_record record (start answers).

Definition translate (text_record : dict) (answers : list (res (option string)))
  : res dict * world :=
  gpt_translate_text text_record "English" (start answers).

(** a batch of two: the call for record 0 is answered [first] and
    completes first, the call for record 1 hits the quota *)
Definition quota_message : string := "You exceeded your current quota".

Definition quota_after (first : string) : schedule :=
  Schedule
    (fun i => match i with
              | O => start [Ret (Some first)]
              | _ => start [Raise (RateLimitError quota_message)]
              end)
    [0; 1]%nat.

(** a batch of two, both calls answered; record 1 completes first *)
Definition both_answered : schedule :=
  Schedule
    (fun i => match i with
              | O => start [Ret (Some text_valid)]
              | _ => start [Ret (Some (text_fix "4"))]
              end)
    [1; 0]%nat.

Definition parallel (records : list dict) (sched : schedule)
  : res (list (option dict)) :=
  process_records_parallel records 5 sched.

(** a processed record in Spanish *)
Definition processed_record : dict :=
  [("Question", VStr "Cuanto es 2+2?");
   ("Grade", VInt 3);
   ("Explanation", VStr "  ");
   ("_validation", VDict [("valid", VBool true); ("reason", VStr "correcto")]);
   ("explanation_status", VStr "Answer is correct.")].

(** a flagged record whose only text is the validation reason *)
Definition flagged_record : dict :=
  [("_validation",
    VDict [("valid", VBool false); ("reason", VStr "Suma incorrecta");
           ("corrected", VBool true)])].


(** a batch of two: record 1 completes first and its response is a JSON
    array; record 0 hits the quota afterwards *)
Definition array_first : schedule :=
  Schedule
    (fun i => match i with
              | O => start [Raise (RateLimitError quota_message)]
              | _ => start [Ret (Some "[]")]
              end)
    [1; 0]%nat.

(** six uploaded records: a batch of five and a batch of one *)
Definition six_records : list dict := replicate 6 sum_record.

(** every call of every batch answered, futures completing in index order *)
Definition all_answered (i : nat) : schedule :=
  Schedule (fun _ => start [Ret (Some text_valid)])
           (seq 0 (length (take batch_size (drop i six_records)))).

(** the first batch answered, the second one out of quota *)
Definition quota_in_second (i : nat) : schedule :=
  if (i <? batch_size)%nat then all_answered i
  else Schedule (fun _ => start [Raise (RateLimitError quota_message)]) [0]%nat.

(** a record spelled in lower case *)
Definition lower_record : dict :=
  [("question", VStr "2+2?"); ("answer", VStr "5")].

(** a record whose question is under a Spanish key *)
Definition spanish_record : dict := [("pregunta", VStr "2+2?")].

(** a record whose question type is a number *)
Definition numbered_record : dict :=
  [("Question", VStr "2+2?"); ("Question Type", VInt 7)].

(** a processed record with nothing to translate *)
Definition bare_record : dict :=
  [("Grade", VInt 3);
   ("Explanation", VStr "  ");
   ("_validation", VDict [("valid", VBool true); ("reason", VNull)]);
   ("explanation_status", VStr "Answer is correct.")].

(** the output of the validator for [sum_record] answered [text_valid] *)
Definition sum_passed : dict :=
  [("Question", VStr "2+2?"); ("Answer", VStr "5");
   ("Question Type", VStr "short");
   ("_validation", VDict [("valid", VBool true); ("reason", VStr "ok")]);
   ("explanation_status", VStr "Answer is correct.")].

(** the output of the validator for [sum_record] when the key is refused *)
Definition sum_refused : dict :=
  [("Question", VStr "2+2?"); ("Answer", VStr "5");
   ("Question Type", VStr "short");
   ("explanation_status", VStr "Explanation is already correct.");
   ("_validation",
    VDict [("valid", VBool false);
           ("reason", VStr "Authentication error: Incorrect API key provided");
           ("corrected", VBool true)])].

Definition fresh_session : session := Session None None None.

(** one batch of one record, answered *)
Definition one_answered (_ : nat) : schedule :=
  Schedule (fun _ => start [Ret (Some text_valid)]) [0]%nat.
End Scripted.

(** ** Dictionaries *)

Section AssocFacts.
Context {V : Type}.
Implicit Types (k : string) (v : V) (d : list (string * V)).

Lemma dict_get_set_eq k v d : dict_get k (dict_set k v d) = Some v.
Proof.
  induction d as [|[k' v'] d IH]; simpl.
  - by rewrite String.eqb_refl.
  - destruct (String.eqb k k') eqn:E; simpl; rewrite E; auto.
Qed.

Lemma dict_get_set_ne k k' v d :
  k <> k' -> dict_get k' (dict_set k v d) = dict_get k' d.
Proof.
  intros Hne. induction d as [|[k0 v0] d IH]; simpl.
  - destruct (String.eqb k' k) eqn:E; [|done].
    apply String.eqb_eq in E. congruence.
  - destruct (String.eqb k k0) eqn:E; simpl.
    + apply String.eqb_eq in E. subst k0.
      destruct (String.eqb k' k) eqn:E'; [|done].
      apply String.eqb_eq in E'. congruence.
    + by rewrite IH.
Qed.

Lemma dict_get_Some_elem k v d : dict_get k d = Some v -> (k, v) ∈ d.
Proof.
  induction d as [|[k0 v0] d IH]; simpl; [done|].
  destruct (String.eqb k k0) eqn:E.
  - apply String.eqb_eq in E. intros [= ->]. subst. left.
  - intros H. right. auto.
Qed.

Lemma dict_get_None_keys k d : dict_get k d = None -> k ∉ dict_keys d.
Proof.
  induction d as [|[k0 v0] d IH]; simpl.
  - intros _. apply not_elem_of_nil.
  - destruct (String.eqb k k0) eqn:E; [done|].
    apply String.eqb_neq in E. intros H.
    apply not_elem_of_cons. split; [done | by apply IH].
Qed.

(** assigning to a fresh key appends the entry *)
Lemma dict_set_fresh k v d : k ∉ dict_keys d -> dict_set k v d = (d ++ [(k, v)])%list.
Proof.
  induction d as [|[k0 v0] d IH]; simpl; [done|].
  intros [Hne Hnin]%not_elem_of_cons.
  apply String.eqb_neq in Hne. rewrite Hne. by rewrite IH.
Qed.
End AssocFacts.

Lemma truthy_get_present (k : string) (d : dict) :
  truthy (dict_get_default k VNull d) = true ->
  dict_get k d = Some (dict_get_default k VNull d).
Proof.
  unfold dict_get_default. destruct (dict_get k d); simpl; congruence.
Qed.

(** ** The validator *)

Section Validator.
Context `{RT : Runtime}.

Lemma validate_record_outcome (record : dict) (w : World) :
  validate_record record w =
  match model_outcome record w with
  | (Ret result, w') =>
      (attach_result (get_key_map_for_language (detect_language record))
                     record result, w')
  | (Raise e, w') => (Raise e, w')
  end.
Proof. reflexivity. Qed.

Lemma attach_result_invalid (language : value) (record result : dict) :
  truthy (dict_get_default "valid" (VBool false) result) = false ->
  attach_result (get_key_map_for_language language) record (VDict result)
  = Ret (dict_set "_validation" (flagged result) (corrected_record result record)).
Proof.
  intros Hv. unfold attach_result. rewrite Hv.
  unfold apply_corrections, corrected_record.
  change (key_map_item (get_key_map_for_language language) "answer")
    with (@Ret string "Answer").
  change (key_map_item (get_key_map_for_language language) "explanation")
    with (@Ret string "Explanation").
  destruct (truthy (dict_get_default "corrected_answer" VNull result)) eqn:Ha;
    destruct (truthy (dict_get_default "corrected_explanation" VNull result)) eqn:He;
    try rewrite (truthy_get_present _ _ Ha);
    try rewrite (truthy_get_present _ _ He); reflexivity.
Qed.

Lemma validate_record_valid (record result : dict) (w w' : World) :
  model_outcome record w = (Ret (VDict result), w') ->
  truthy (dict_get_default "valid" (VBool false) result) = true ->
  validate_record record w
  = (Ret (dict_set "explanation_status" (VStr "Answer is correct.")
            (dict_set "_validation" (passed result) record)), w').
Proof.
  intros Ho Hv. rewrite validate_record_outcome, Ho.
  unfold attach_result. by rewrite Hv.
Qed.

Lemma validate_record_invalid (record result : dict) (w w' : World) :
  model_outcome record w = (Ret (VDict result), w') ->
  truthy (dict_get_default "valid" (VBool false) result) = false ->
  validate_record record w
  = (Ret (dict_set "_validation" (flagged result)
                   (corrected_record result record)), w').
Proof.
  intros Ho Hv. rewrite validate_record_outcome, Ho.
  by rewrite attach_result_invalid.
Qed.

(** the status the non-valid path leaves in the record *)
Lemma corrected_record_status (result record : dict) :
  dict_get "explanation_status" (corrected_record result record) =
  if truthy (dict_get_default "corrected_explanation" VNull result) then
    if truthy (dict_get_default "corrected_answer" VNull result)
    then Some (VStr "Answer corrected by AI.")
    else dict_get "explanation_status" record
  else Some (VStr "Explanation is already correct.").
Proof.
  unfold corrected_record.
  destruct (truthy (dict_get_default "corrected_explanation" VNull result));
    destruct (truthy (dict_get_default "corrected_answer" VNull result));
    rewrite ?dict_get_set_eq; try done.
  - rewrite dict_get_set_ne by done. by rewrite dict_get_set_eq.
  - by rewrite dict_get_set_ne by done.
Qed.

Lemma corrected_record_answer (result record : dict) :
  truthy (dict_get_default "corrected_answer" VNull result) = true ->
  dict_get "Answer" (corrected_record result record)
  = Some (dict_get_default "corrected_answer" VNull result).
Proof.
  intros Ha. unfold corrected_record. rewrite Ha.
  destruct (truthy (dict_get_default "corrected_explanation" VNull result));
    rewrite !dict_get_set_ne by done; by rewrite dict_get_set_eq.
Qed.
End Validator.

Section ValidatorClaims.
Context `{RT : Runtime}.

(** C5. When the validation outcome is valid, [validate_record] returns
    the record with [_validation = {valid: true, reason}] and
    [explanation_status = "Answer is correct."] attached and nothing else
    changed: every other key, [Answer] and [Explanation] among them, holds
    the value it held in the input. *)
Theorem validate_record_valid_frame (record result : dict) (w w' : World) :
  model_outcome record w = (Ret (VDict result), w') ->
  truthy (dict_get_default "valid" (VBool false) result) = true ->
  let out := dict_set "explanation_status" (VStr "Answer is correct.")
               (dict_set "_validation" (passed result) record) in
  validate_record record w = (Ret out, w')
  /\ dict_get "_validation" out = Some (passed result)
  /\ dict_get "explanation_status" out = Some (VStr "Answer is correct.")
  /\ (forall k, k <> "_validation" -> k <> "explanation_status" ->
                dict_get k out = dict_get k record)
  /\ dict_get "Answer" out = dict_get "Answer" record
  /\ dict_get "Explanation" out = dict_get "Explanation" record.
Proof.
  intros Ho Hv out.
  assert (Hframe : forall k, k <> "_validation" -> k <> "explanation_status" ->
                             dict_get k out = dict_get k record).
  { intros k H1 H2. unfold out.
    rewrite dict_get_set_ne by congruence. by rewrite dict_get_set_ne by congruence. }
  repeat split.
  - by apply validate_record_valid.
  - unfold out. rewrite dict_get_set_ne by done. apply dict_get_set_eq.
  - apply dict_get_set_eq.
  - exact Hframe.
  - by apply Hframe.
  - by apply Hframe.
Qed.

(** C2, as the code has it.  For the record
    [{"Question": "2+2?", "Answer": "5", "Question Type": "short"}] and an
    outcome that is invalid with [corrected_answer = "4"] and no
    [corrected_explanation], the output has [Answer = "4"],
    [_validation.valid = false], [_validation.corrected = true] and
    [explanation_status = "Explanation is already correct."]: the status
    set with the answer is overwritten by the branch for the missing
    explanation. *)
Theorem validate_sum_record_corrected (result : dict) (w w' : World) :
  model_outcome sum_record w = (Ret (VDict result), w') ->
  truthy (dict_get_default "valid" (VBool false) result) = false ->
  dict_get "corrected_answer" result = Some (VStr "4") ->
  truthy (dict_get_default "corrected_explanation" VNull result) = false ->
  validate_record sum_record w =
    (Ret [("Question", VStr "2+2?"); ("Answer", VStr "4");
          ("Question Type", VStr "short");
          ("explanation_status", VStr "Explanation is already correct.");
          ("_validation",
           VDict [("valid", VBool false);
                  ("reason", dict_get_default "reason" VNull result);
                  ("corrected", VBool true)])], w').
Proof.
  intros Ho Hv Ha He.
  assert (Hd : dict_get_default "corrected_answer" VNull result = VStr "4")
    by (unfold dict_get_default; by rewrite Ha).
  rewrite (validate_record_invalid _ _ _ _ Ho Hv).
  unfold corrected_record. cbv zeta. rewrite Hd, He. reflexivity.
Qed.

(** C3, as the code has it.  On the non-valid path the status
    ["Explanation is already correct."] is assigned exactly when the
    outcome has no non-empty [corrected_explanation], whether or not it has
    a [corrected_answer]; with both corrections the status is
    ["Answer corrected by AI."]; and the validator assigns no status only
    when there is a [corrected_explanation] and no [corrected_answer] (the
    output then carries whatever [explanation_status] the input had). *)
Theorem validate_record_invalid_status (record result : dict) (w w' : World) :
  model_outcome record w = (Ret (VDict result), w') ->
  truthy (dict_get_default "valid" (VBool false) result) = false ->
  exists out,
    validate_record record w = (Ret out, w')
    /\ dict_get "explanation_status" out =
       if truthy (dict_get_default "corrected_explanation" VNull result) then
         if truthy (dict_get_default "corrected_answer" VNull result)
         then Some (VStr "Answer corrected by AI.")
         else dict_get "explanation_status" record
       else Some (VStr "Explanation is already correct.").
Proof.
  intros Ho Hv. eexists. split.
  - by apply validate_record_invalid.
  - rewrite dict_get_set_ne by done. apply corrected_record_status.
Qed.

(** C4, as the code has it.  When the output is flagged
    [_validation.valid = false], [corrected = true] and the outcome carries
    a non-empty [corrected_answer], the output's [Answer] field equals that
    [corrected_answer]; it differs from the input's [Answer] exactly when
    the model's [corrected_answer] does. *)
Theorem validate_record_corrected_answer
    (record result out validation : dict) (corrected : value) (w w' : World) :
  model_outcome record w = (Ret (VDict result), w') ->
  validate_record record w = (Ret out, w') ->
  dict_get "_validation" out = Some (VDict validation) ->
  dict_get "valid" validation = Some (VBool false) ->
  dict_get "corrected" validation = Some (VBool true) ->
  dict_get "corrected_answer" result = Some corrected ->
  truthy corrected = true ->
  dict_get "Answer" out = Some corrected
  /\ (dict_get "Answer" out <> dict_get "Answer" record
      <-> dict_get "Answer" record <> Some corrected).
Proof.
  intros Ho Hr Hval Hvalid Hcorr Ha Ht.
  assert (Hans : dict_get "Answer" out = Some corrected).
  { destruct (truthy (dict_get_default "valid" (VBool false) result)) eqn:Hv.
    - rewrite (validate_record_valid _ _ _ _ Ho Hv) in Hr. injection Hr as <-.
      rewrite dict_get_set_ne, dict_get_set_eq in Hval by done.
      injection Hval as <-. discriminate Hvalid.
    - rewrite (validate_record_invalid _ _ _ _ Ho Hv) in Hr. injection Hr as <-.
      rewrite dict_get_set_ne by done.
      assert (Hd : dict_get_default "corrected_answer" VNull result = corrected)
        by (unfold dict_get_default; by rewrite Ha).
      rewrite corrected_record_answer; rewrite Hd; done. }
  split; [done|]. rewrite Hans. split; intros H E; apply H; congruence.
Qed.
End ValidatorClaims.

(** ** The validator on concrete records *)

(** C5 at the sample record, answered [{"valid": true, "reason": "ok"}]. *)
Lemma validate_record_valid_frame_witness :
  Scripted.validate sum_record [Ret (Some Scripted.text_valid)] =
    (Ret [("Question", VStr "2+2?"); ("Answer", VStr "5");
          ("Question Type", VStr "short");
          ("_validation", VDict [("valid", VBool true); ("reason", VStr "ok")]);
          ("explanation_status", VStr "Answer is correct.")],
     Scripted.start [])
  /\ dict_get "Answer"
       (dict_set "explanation_status" (VStr "Answer is correct.")
          (dict_set "_validation"
             (passed [("valid", VBool true); ("reason", VStr "ok")]) sum_record))
     = dict_get "Answer" sum_record.
Proof.
  destruct (validate_record_valid_frame (RT := Scripted.runtime) sum_record
              [("valid", VBool true); ("reason", VStr "ok")]
              (Scripted.start [Ret (Some Scripted.text_valid)]) (Scripted.start [])
              eq_refl eq_refl) as (Hrun & _ & _ & _ & Hans & _).
  split; [exact Hrun | exact Hans].
Defined.

(** C2 fails as stated: in the scenario of the claim the outcome is invalid
    with [corrected_answer = "4"] and a null [corrected_explanation], the
    validator returns, and the status of the output is not
    ["Answer corrected by AI."]. *)
Lemma validate_sum_record_status_counterexample :
  Scripted.outcome sum_record [Ret (Some (Scripted.text_fix "4"))]
    = (Ret (Scripted.value_fix "4"), Scripted.start [])
  /\ exists out,
       Scripted.validate sum_record [Ret (Some (Scripted.text_fix "4"))]
         = (Ret out, Scripted.start [])
       /\ dict_get "Answer" out = Some (VStr "4")
       /\ dict_get "_validation" out
          = Some (VDict [("valid", VBool false); ("reason", VStr "2+2 is 4");
                         ("corrected", VBool true)])
       /\ dict_get "explanation_status" out <> Some (VStr "Answer corrected by AI.").
Proof.
  split; [reflexivity|]. eexists. split; [reflexivity|].
  repeat split; discriminate.
Qed.

Lemma validate_sum_record_corrected_witness :
  Scripted.validate sum_record [Ret (Some (Scripted.text_fix "4"))] =
    (Ret [("Question", VStr "2+2?"); ("Answer", VStr "4");
          ("Question Type", VStr "short");
          ("explanation_status", VStr "Explanation is already correct.");
          ("_validation",
           VDict [("valid", VBool false); ("reason", VStr "2+2 is 4");
                  ("corrected", VBool true)])],
     Scripted.start []).
Proof.
  exact (validate_sum_record_corrected (RT := Scripted.runtime)
           [("valid", VBool false); ("reason", VStr "2+2 is 4");
            ("corrected_answer", VStr "4"); ("corrected_explanation", VNull)]
           (Scripted.start [Ret (Some (Scripted.text_fix "4"))]) (Scripted.start [])
           eq_refl eq_refl eq_refl eq_refl).
Defined.

(** [call_openai] returns whatever JSON value the text parses to, and
    [validate_record] calls [.get] on it.  A response that
    is a JSON array, or a record whose question type is a number, makes
    [validate_record] raise [AttributeError]. *)
Lemma validate_record_not_object :
  Scripted.validate sum_record [Ret (Some "[]")]
    = (Raise (AttributeError "'list' object has no attribute 'get'"),
       Scripted.start [])
  /\ Scripted.validate [("Question", VStr "2+2?"); ("Question Type", VInt 7)]
       [Ret (Some Scripted.text_valid)]
     = (Raise (AttributeError "'int' object has no attribute 'lower'"),
        Scripted.start [Ret (Some Scripted.text_valid)]).
Proof. split; reflexivity. Qed.

(** C3 fails as stated: the outcome [{"valid": false, "reason": "unclear"}]
    has neither correction, the input has no [explanation_status], and the
    output has the status ["Explanation is already correct."]. *)
Lemma validate_record_invalid_status_counterexample :
  exists result out,
    Scripted.outcome sum_record [Ret (Some Scripted.text_flagged)]
      = (Ret (VDict result), Scripted.start [])
    /\ truthy (dict_get_default "valid" (VBool false) result) = false
    /\ dict_get "corrected_answer" result = None
    /\ dict_get "corrected_explanation" result = None
    /\ dict_get "explanation_status" sum_record = None
    /\ Scripted.validate sum_record [Ret (Some Scripted.text_flagged)]
       = (Ret out, Scripted.start [])
    /\ dict_get "explanation_status" out
       = Some (VStr "Explanation is already correct.").
Proof.
  do 2 eexists. repeat split; reflexivity.
Qed.

Lemma validate_record_invalid_status_witness :
  exists out,
    Scripted.validate sum_record [Ret (Some Scripted.text_explained)]
      = (Ret out, Scripted.start [])
    /\ dict_get "explanation_status" out = None.
Proof.
  exact (validate_record_invalid_status (RT := Scripted.runtime) sum_record
           [("valid", VBool false); ("reason", VStr "steps");
            ("corrected_explanation", VStr "2+2=4")]
           (Scripted.start [Ret (Some Scripted.text_explained)]) (Scripted.start [])
           eq_refl eq_refl).
Defined.

(** C4 fails as stated.  With [corrected_answer = "5"], the answer the
    record already had, the output is flagged [valid = false],
    [corrected = true] and its [Answer] does not differ from the input's;
    with [corrected_answer = ""], which is not null, the output's [Answer]
    is still ["5"] and not the corrected answer. *)
Lemma validate_record_corrected_answer_counterexample :
  (exists out,
     Scripted.outcome sum_record [Ret (Some (Scripted.text_fix "5"))]
       = (Ret (Scripted.value_fix "5"), Scripted.start [])
     /\ Scripted.validate sum_record [Ret (Some (Scripted.text_fix "5"))]
        = (Ret out, Scripted.start [])
     /\ dict_get "_validation" out = Some (flagged [("reason", VStr "2+2 is 4")])
     /\ ~ (dict_get "Answer" out = Some (VStr "5")
           /\ dict_get "Answer" out <> dict_get "Answer" sum_record))
  /\ (exists out,
        Scripted.outcome sum_record [Ret (Some (Scripted.text_fix ""))]
          = (Ret (Scripted.value_fix ""), Scripted.start [])
        /\ Scripted.validate sum_record [Ret (Some (Scripted.text_fix ""))]
           = (Ret out, Scripted.start [])
        /\ dict_get "_validation" out = Some (flagged [("reason", VStr "2+2 is 4")])
        /\ dict_get "Answer" out <> Some (VStr "")).
Proof.
  split; eexists; (split; [reflexivity|]); (split; [reflexivity|]);
    (split; [reflexivity|]).
  - intros [_ H]. by apply H.
  - discriminate.
Qed.

Lemma validate_record_corrected_answer_witness :
  dict_get "Answer"
    [("Question", VStr "2+2?"); ("Answer", VStr "4");
     ("Question Type", VStr "short");
     ("explanation_status", VStr "Explanation is already correct.");
     ("_validation", flagged [("reason", VStr "2+2 is 4")])]
  = Some (VStr "4").
Proof.
  exact (proj1 (validate_record_corrected_answer (RT := Scripted.runtime)
           sum_record
           [("valid", VBool false); ("reason", VStr "2+2 is 4");
            ("corrected_answer", VStr "4"); ("corrected_explanation", VNull)]
           _ [("valid", VBool false); ("reason", VStr "2+2 is 4");
              ("corrected", VBool true)]
           (VStr "4")
           (Scripted.start [Ret (Some (Scripted.text_fix "4"))]) (Scripted.start [])
           eq_refl eq_refl eq_refl eq_refl eq_refl eq_refl eq_refl)).
Defined.

(** ** The validation call *)

Section ModelClient.
Context `{RT : Runtime}.


End ModelClient.

(** ** The translator *)

Section Loop.
Context `{RT : Runtime}.
Variable body : string -> value -> M value.

Lemma for_items_app (l1 l2 out : dict) (w : World) :
  for_items body (l1 ++ l2)%list out w =
  match for_items body l1 out w with
  | (Ret out1, w1) => for_items body l2 out1 w1
  | (Raise e, w1) => (Raise e, w1)
  end.
Proof.
  revert out w. induction l1 as [|[k v] l1 IH]; intros out w; simpl; [done|].
  unfold bind_m. destruct (body k v w) as [[x|e] w1]; [apply IH | done].
Qed.

(** an exception of the loop is the exception of one iteration, reached
    after the iterations before it returned *)
Lemma for_items_raise (items out : dict) (w w' : World) (e : exn) :
  for_items body items out w = (Raise e, w') ->
  exists pre k v post out1 w1,
    items = (pre ++ (k, v) :: post)%list
    /\ for_items body pre out w = (Ret out1, w1)
    /\ body k v w1 = (Raise e, w').
Proof.
  revert out w. induction items as [|[k v] items IH]; intros out w; simpl.
  - discriminate.
  - unfold bind_m. destruct (body k v w) as [[x|e0] w1] eqn:Hb.
    + intros H. destruct (IH _ _ H) as (pre & k' & v' & post & out1 & w2 & -> & Hpre & Hk).
      exists ((k, v) :: pre), k', v', post, out1, w2. split; [done|]. split; [|done].
      simpl. unfold bind_m. by rewrite Hb.
    + intros [= <- <-]. exists [], k, v, items, out, w. by repeat split.
Qed.

(** what the loop leaves under each key *)
Lemma for_items_get (items out tr : dict) (w w' : World) :
  for_items body items out w = (Ret tr, w') ->
  forall k,
    (k ∉ dict_keys items -> dict_get k tr = dict_get k out)
    /\ (dict_wf items -> forall v, (k, v) ∈ items ->
        exists x w1 w2, body k v w1 = (Ret x, w2) /\ dict_get k tr = Some x).
Proof.
  revert out w. induction items as [|[k0 v0] items IH]; intros out w; simpl.
  - intros [= <- <-] k. split; [done|]. intros _ v Hin. by apply elem_of_nil in Hin.
  - unfold bind_m. destruct (body k0 v0 w) as [[x|e] w1] eqn:Hb; [|discriminate].
    intros H k. destruct (IH _ _ H k) as [IHout IHin]. split.
    + intros [Hne Hnin]%not_elem_of_cons.
      rewrite IHout by done. by apply dict_get_set_ne.
    + intros Hwf v Hin. apply NoDup_cons in Hwf as [Hfresh Hwf].
      apply elem_of_cons in Hin as [[= -> ->]|Hin].
      * exists x, w, w1. split; [done|].
        destruct (IH _ _ H k0) as [IHout0 _].
        rewrite IHout0 by done. apply dict_get_set_eq.
      * by apply IHin.
Qed.

(** a key whose iteration gives back the value it was given keeps its
    value *)
Lemma for_items_unchanged (items tr : dict) (w w' : World) (k : string) :
  dict_wf items ->
  for_items body items [] w = (Ret tr, w') ->
  (forall v, dict_get k items = Some v ->
             forall w1 x w2, body k v w1 = (Ret x, w2) -> x = v) ->
  dict_get k tr = dict_get k items.
Proof.
  intros Hwf H Hbody. destruct (for_items_get _ _ _ _ _ H k) as [Hout Hin].
  destruct (dict_get k items) as [v|] eqn:E.
  - destruct (Hin Hwf v (dict_get_Some_elem _ _ _ E)) as (x & w1 & w2 & Hx & ->).
    f_equal. by eapply Hbody.
  - rewrite Hout; [done | by apply dict_get_None_keys].
Qed.

(** the loop adds one entry per item, in order *)
Lemma for_items_keys (items out tr : dict) (w w' : World) :
  for_items body items out w = (Ret tr, w') ->
  NoDup (dict_keys out ++ dict_keys items) ->
  dict_keys tr = (dict_keys out ++ dict_keys items)%list.
Proof.
  revert out w. induction items as [|[k0 v0] items IH]; intros out w; simpl.
  - intros [= <- <-] _. by rewrite app_nil_r.
  - unfold bind_m. destruct (body k0 v0 w) as [[x|e] w1] eqn:Hb; [|discriminate].
    intros H Hnd.
    assert (Hfresh : k0 ∉ dict_keys out).
    { apply NoDup_app in Hnd as (_ & Hdis & _). intros Hin.
      apply (Hdis _ Hin). left. }
    assert (Hkeys : dict_keys (dict_set k0 x out) = (dict_keys out ++ [k0])%list).
    { rewrite dict_set_fresh by done. unfold dict_keys. by rewrite map_app. }
    rewrite (IH _ _ H); rewrite Hkeys, <- app_assoc; done.
Qed.
End Loop.

Section Translator.
Context `{RT : Runtime}.
Implicit Types (target : string) (w : World).

(** the four ways a top-level string field ends *)
Lemma translate_value_cases target (val : string) w :
  let r := chat_create (field_request target val) w in
  translate_value target val w =
  match fst r with
  | Ret (Some text) => (Ret (VStr (str_strip text)), snd r)
  | Ret None => (Ret (VStr val), snd r)
  | Raise (RateLimitError error_msg) =>
      if is_quota error_msg
      then (Raise (QuotaExceededException
                     ("Translation quota exceeded: " ++ error_msg)), snd r)
      else (Ret (VStr val), sleep 60 (snd r))
  | Raise (AuthenticationError m) =>
      (Raise (QuotaExceededException
                ("Authentication error during translation: " ++ m)), snd r)
  | Raise _ => (Ret (VStr val), snd r)
  end.
Proof.
  cbv zeta. unfold translate_value, translation_try.
  destruct (chat_create (field_request target val) w) as [[[text|]|e] w1];
    simpl; try done.
Qed.

(** the reason of [_validation]: no pause, and only the quota message of a
    rate-limit error is raised *)
Lemma translate_reason_cases target (val_value : string) w :
  let r := chat_create (reason_request target val_value) w in
  translate_reason target val_value w =
  match fst r with
  | Ret (Some text) => (Ret (VStr (str_strip text)), snd r)
  | Raise (RateLimitError error_msg) =>
      if is_quota error_msg
      then (Raise (QuotaExceededException
                     ("Translation quota exceeded: " ++ error_msg)), snd r)
      else (Ret (VStr val_value), snd r)
  | _ => (Ret (VStr val_value), snd r)
  end.
Proof.
  cbv zeta. unfold translate_reason, translation_try.
  destruct (chat_create (reason_request target val_value) w) as [[[text|]|e] w1];
    simpl; try done.
Qed.

Lemma translate_value_raise target (val : string) w w' e :
  translate_value target val w = (Raise e, w') ->
  exists m, e = QuotaExceededException m.
Proof.
  rewrite translate_value_cases. cbv zeta.
  destruct (fst (chat_create (field_request target val) w)) as [[text|]|e0];
    try discriminate.
  destruct e0; try discriminate.
  - destruct (is_quota msg); [|discriminate]. intros [= <- _]. eauto.
  - intros [= <- _]. eauto.
Qed.

Lemma translate_reason_raise target (val_value : string) w w' e :
  translate_reason target val_value w = (Raise e, w') ->
  exists m, e = QuotaExceededException m.
Proof.
  rewrite translate_reason_cases. cbv zeta.
  destruct (fst (chat_create (reason_request target val_value) w)) as [[text|]|e0];
    try discriminate.
  destruct e0; try discriminate.
  destruct (is_quota msg); [|discriminate]. intros [= <- _]. eauto.
Qed.

Lemma translate_validation_item_raise target k v w w' e :
  translate_validation_item target k v w = (Raise e, w') ->
  exists m, e = QuotaExceededException m.
Proof.
  unfold translate_validation_item.
  destruct (translatable_reason k v); [apply translate_reason_raise|].
  discriminate.
Qed.

Lemma translate_validation_item_other target k v w w' x :
  k <> "reason" ->
  translate_validation_item target k v w = (Ret x, w') -> x = v.
Proof.
  intros Hne%String.eqb_neq. unfold translate_validation_item, translatable_reason.
  rewrite Hne. destruct v; simpl; by intros [= <- _].
Qed.

Lemma translate_validation_raise target items out w w' e :
  translate_validation target items out w = (Raise e, w') ->
  exists m, e = QuotaExceededException m.
Proof.
  intros H. apply for_items_raise in H as (pre & k & v & post & out1 & w1 & _ & _ & H).
  by eapply translate_validation_item_raise.
Qed.

Lemma translate_item_raise target k v w w' e :
  translate_item target k v w = (Raise e, w') ->
  exists m, e = QuotaExceededException m.
Proof.
  unfold translate_item.
  assert (Hplain :
    (if String.eqb k "explanation_status" then ret_m v
     else if kept_as_is v then ret_m v
     else match v with
          | VStr s => translate_value target s
          | _ => ret_m v
          end) w = (Raise e, w') -> exists m, e = QuotaExceededException m).
  { destruct (String.eqb k "explanation_status"); [discriminate|].
    destruct (kept_as_is v); [discriminate|].
    destruct v; try discriminate. apply translate_value_raise. }
  destruct (String.eqb k "_validation"); [|exact Hplain].
  destruct v; try exact Hplain.
  unfold bind_m.
  destruct (translate_validation target d [] w) as [[tv|e0] w1] eqn:Hv;
    [discriminate|].
  intros [= <- _]. by eapply translate_validation_raise.
Qed.

Lemma translate_item_status target v w :
  translate_item target "explanation_status" v w = (Ret v, w).
Proof. reflexivity. Qed.

Lemma translate_item_kept target k v w :
  kept_as_is v = true -> (k = "_validation" -> is_dict v = false) ->
  translate_item target k v w = (Ret v, w).
Proof.
  intros Hkept Hval. unfold translate_item.
  assert (Hplain :
    (if String.eqb k "explanation_status" then ret_m v
     else if kept_as_is v then ret_m v
     else match v with
          | VStr s => translate_value target s
          | _ => ret_m v
          end) w = (Ret v, w)).
  { rewrite Hkept. by destruct (String.eqb k "explanation_status"). }
  destruct (String.eqb k "_validation") eqn:E; [|exact Hplain].
  apply String.eqb_eq in E. specialize (Hval E).
  destruct v; try exact Hplain. discriminate Hval.
Qed.

Lemma translate_item_validation target (vd : dict) w w' x :
  translate_item target "_validation" (VDict vd) w = (Ret x, w') ->
  exists tv, x = VDict tv /\ translate_validation target vd [] w = (Ret tv, w').
Proof.
  unfold translate_item. simpl. unfold bind_m.
  destruct (translate_validation target vd [] w) as [[tv|e] w1]; [|discriminate].
  intros [= <- <-]. eauto.
Qed.

Lemma gpt_translate_text_raise (record : dict) target w w' e :
  gpt_translate_text record target w = (Raise e, w') ->
  exists m, e = QuotaExceededException m.
Proof.
  intros H. apply for_items_raise in H as (pre & k & v & post & out1 & w1 & _ & _ & H).
  by eapply translate_item_raise.
Qed.

(** C9. [gpt_translate_text] raises nothing but the quota signal, and the
    record it returns has the [explanation_status] of the input, a
    [_validation] whose [valid] and [corrected] entries are those of the
    input, and, under every other key whose value is not a string or is a
    string that is empty after [strip], the value of the input. *)
Theorem gpt_translate_text_frame (record : dict) target w :
  dict_wf record ->
  ((exists tr, fst (gpt_translate_text record target w) = Ret tr)
   \/ (exists m, fst (gpt_translate_text record target w)
                 = Raise (QuotaExceededException m)))
  /\ forall tr, fst (gpt_translate_text record target w) = Ret tr ->
       dict_get "explanation_status" tr = dict_get "explanation_status" record
       /\ (forall vd, dict_get "_validation" record = Some (VDict vd) ->
             dict_wf vd ->
             exists vd', dict_get "_validation" tr = Some (VDict vd')
                         /\ dict_get "valid" vd' = dict_get "valid" vd
                         /\ dict_get "corrected" vd' = dict_get "corrected" vd)
       /\ (forall k v, dict_get k record = Some v ->
             kept_as_is v = true ->
             (k = "_validation" -> is_dict v = false) ->
             dict_get k tr = Some v).
Proof.
  intros Hwf.
  destruct (gpt_translate_text record target w) as [[tr0|e] w'] eqn:Hrun; simpl.
  - split; [eauto|]. intros tr [= <-]. unfold gpt_translate_text, translate_items in Hrun.
    split; [|split].
    + apply (for_items_unchanged _ _ _ _ _ _ Hwf Hrun).
      intros v _ w1 x w2. rewrite translate_item_status. by intros [= <- _].
    + intros vd Hvd Hwfvd.
      destruct (for_items_get _ _ _ _ _ _ Hrun "_validation") as [_ Hin].
      destruct (Hin Hwf _ (dict_get_Some_elem _ _ _ Hvd)) as (x & w1 & w2 & Hx & Hget).
      apply translate_item_validation in Hx as (tv & -> & Htv).
      exists tv. split; [done|].
      split; apply (for_items_unchanged _ _ _ _ _ _ Hwfvd Htv);
        intros v _ w3 x w4; by apply translate_validation_item_other.
    + intros k v Hk Hkept Hval.
      rewrite (for_items_unchanged _ _ _ _ _ k Hwf Hrun); [done|].
      intros v' Hv' w1 x w2. rewrite Hk in Hv'. injection Hv' as <-.
      rewrite translate_item_kept by done. by intros [= <- _].
  - apply gpt_translate_text_raise in Hrun as [m ->].
    split; [eauto | discriminate].
Qed.

(** C10. [gpt_translate_text] ends in one of two ways: it returns a record
    with every key of the input, in the input's order, or it raises the
    quota signal and returns no record.  When the signal is raised at a
    field, after the fields before it were handled, the call raises it and
    what was built for the earlier fields is not part of the outcome. *)
Theorem gpt_translate_text_all_or_nothing (record : dict) target w :
  dict_wf record ->
  match fst (gpt_translate_text record target w) with
  | Ret tr => dict_keys tr = dict_keys record
  | Raise e => exists m, e = QuotaExceededException m
  end
  /\ forall pre key val post built w1 w2 e,
       record = (pre ++ (key, val) :: post)%list ->
       translate_items target pre [] w = (Ret built, w1) ->
       translate_item target key val w1 = (Raise e, w2) ->
       gpt_translate_text record target w = (Raise e, w2)
       /\ exists m, e = QuotaExceededException m.
Proof.
  intros Hwf. split.
  - destruct (gpt_translate_text record target w) as [[tr|e] w'] eqn:Hrun; simpl.
    + by apply for_items_keys in Hrun.
    + by eapply gpt_translate_text_raise.
  - intros pre key val post built w1 w2 e -> Hpre Hkey. split.
    + unfold gpt_translate_text, translate_items in *.
      rewrite for_items_app, Hpre. simpl. unfold bind_m. by rewrite Hkey.
    + by eapply translate_item_raise.
Qed.
End Translator.

(** ** The batch runner *)

Section Pool.
Context `{RT : Runtime}.

Lemma submit_all_lookup (records : list dict) (tw : nat -> World) (i : nat)
    (rec : dict) :
  records !! i = Some rec ->
  submit_all records tw !! i = Some (fst (validate_record rec (tw i))).
Proof.
  intros H. unfold submit_all. rewrite list_lookup_imap, H. reflexivity.
Qed.

(** While the futures yielded are all results, the loop stores each at its
    index and goes on. *)
Lemma collect_prefix (futures : list (res dict)) (pre rest : list nat)
    (results : list (option dict)) :
  (forall j, j ∈ pre -> exists r, futures !! j = Some (Ret r)) ->
  exists results',
    collect futures (pre ++ rest)%list results = collect futures rest results'
    /\ length results' = length results
    /\ forall i,
         (i ∉ pre -> results' !! i = results !! i)
         /\ (i ∈ pre -> i < length results ->
             forall r, futures !! i = Some (Ret r) ->
                       results' !! i = Some (Some r)).
Proof.
  revert results. induction pre as [|j pre IH]; intros results Hret.
  - exists results. split; [done|]. split; [done|]. intros i. split; [done|].
    intros H. by apply elem_of_nil in H.
  - destruct (Hret j) as [r Hj]; [left|].
    destruct (IH (<[j := Some r]> results)) as (results' & Hc & Hlen & Hget).
    { intros j' Hj'. apply Hret. by right. }
    exists results'. simpl. rewrite Hj. split; [exact Hc|].
    rewrite length_insert in Hlen. split; [exact Hlen|].
    intros i. destruct (Hget i) as [Hout Hin]. split.
    + intros [Hne Hnin]%not_elem_of_cons.
      rewrite Hout by done. by apply list_lookup_insert_ne.
    + intros Hi Hlt r0 Hr0. destruct (decide (i ∈ pre)) as [Hpre|Hpre].
      * apply Hin; [done | by rewrite length_insert | done].
      * apply elem_of_cons in Hi as [->|Hi]; [|done].
        rewrite Hout by done. rewrite list_lookup_insert_eq by done.
        congruence.
Qed.

(** C6, as the code has it.  When every validation call of the batch
    returns (none raises, the quota signal or anything else), whatever the
    order in which the futures complete, [process_records_parallel]
    returns a list as long as the input whose element at each index is the
    result of [validate_record] for the record at that index. *)
Theorem process_records_parallel_order (records : list dict) (max_workers : Z)
    (sched : schedule) :
  (0 < max_workers)%Z ->
  completion_order sched ≡ₚ seq 0 (length records) ->
  (forall i rec, records !! i = Some rec ->
     exists out, fst (validate_record rec (task_world sched i)) = Ret out) ->
  exists results,
    process_records_parallel records max_workers sched = Ret results
    /\ length results = length records
    /\ forall i rec out,
         records !! i = Some rec ->
         fst (validate_record rec (task_world sched i)) = Ret out ->
         results !! i = Some (Some out).
Proof.
  intros Hw Hperm Hall.
  assert (Hin : forall j, j ∈ completion_order sched <-> j < length records).
  { intros j. rewrite Hperm, elem_of_seq. lia. }
  destruct (collect_prefix (submit_all records (task_world sched))
              (completion_order sched) [] (replicate (length records) None))
    as (results & Hc & Hlen & Hget).
  { intros j Hj%Hin. destruct (lookup_lt_is_Some_2 records j Hj) as [rec Hrec].
    destruct (Hall _ _ Hrec) as [out Hout].
    exists out. by rewrite (submit_all_lookup _ _ _ _ Hrec), Hout. }
  rewrite app_nil_r in Hc. rewrite length_replicate in Hlen.
  exists results. unfold process_records_parallel, pool_exit.
  destruct (Z.leb_spec max_workers 0); [lia|].
  rewrite Hc. simpl. repeat split; [done|].
  intros i rec out Hrec Hout. destruct (Hget i) as [_ Hstored].
  apply Hstored.
  - apply Hin. by eapply lookup_lt_Some.
  - rewrite length_replicate. by eapply lookup_lt_Some.
  - by rewrite (submit_all_lookup _ _ _ _ Hrec), Hout.
Qed.

(** C1, as the code has it.  When the first future to fail raises the
    quota signal, [process_records_parallel] requests cancellation and
    raises that signal, and the signal is all its caller gets.  At that
    point the local array [results] holds, at its own index, the result of
    every call that completed before, and [None] at every other index; the
    array is not returned and not attached to the exception. *)
Theorem process_records_parallel_quota (records : list dict) (max_workers : Z)
    (sched : schedule) (pre post : list nat) (idx : nat) (rec : dict)
    (m : string) :
  (0 < max_workers)%Z ->
  completion_order sched = (pre ++ idx :: post)%list ->
  (forall j, j ∈ pre ->
     exists rec_j out, records !! j = Some rec_j
       /\ fst (validate_record rec_j (task_world sched j)) = Ret out) ->
  records !! idx = Some rec ->
  fst (validate_record rec (task_world sched idx))
    = Raise (QuotaExceededException m) ->
  process_records_parallel records max_workers sched
    = Raise (QuotaExceededException m)
  /\ cancel_requested (pool_exit records sched) = true
  /\ length (partial_results (pool_exit records sched)) = length records
  /\ (forall i rec_i out,
        i ∈ pre -> records !! i = Some rec_i ->
        fst (validate_record rec_i (task_world sched i)) = Ret out ->
        partial_results (pool_exit records sched) !! i = Some (Some out))
  /\ (forall i, i < length records -> i ∉ pre ->
        partial_results (pool_exit records sched) !! i = Some None).
Proof.
  intros Hw Horder Hpre Hidx Hraise.
  destruct (collect_prefix (submit_all records (task_world sched))
              pre (idx :: post) (replicate (length records) None))
    as (results & Hc & Hlen & Hget).
  { intros j Hj. destruct (Hpre j Hj) as (rec_j & out & Hrec & Hout).
    exists out. by rewrite (submit_all_lookup _ _ _ _ Hrec), Hout. }
  rewrite length_replicate in Hlen.
  assert (Hexit : pool_exit records sched
                  = LoopExit results (Some (QuotaExceededException m)) true).
  { unfold pool_exit. rewrite Horder, Hc. simpl.
    by rewrite (submit_all_lookup _ _ _ _ Hidx), Hraise. }
  unfold process_records_parallel.
  destruct (Z.leb_spec max_workers 0); [lia|].
  rewrite Hexit. simpl. repeat split; [done|..].
  - intros i rec_i out Hi Hrec Hout. destruct (Hget i) as [_ Hstored].
    apply Hstored; [done | | ].
    + rewrite length_replicate. by eapply lookup_lt_Some.
    + by rewrite (submit_all_lookup _ _ _ _ Hrec), Hout.
  - intros i Hlt Hi. destruct (Hget i) as [Hkept _].
    rewrite Hkept by done. by apply lookup_replicate_2.
Qed.
End Pool.

(** ** The translator and the batch runner on concrete inputs *)

Ltac distinct_keys :=
  unfold dict_wf, dict_keys; simpl;
  repeat (apply NoDup_cons_2;
          [rewrite ?elem_of_cons, elem_of_nil; intros H;
           repeat (destruct H as [H|H]; [discriminate H|]); exact H|]);
  apply NoDup_nil_2.

Lemma processed_record_wf : dict_wf Scripted.processed_record.
Proof. distinct_keys. Defined.

(** C8 at the failing input: the call for the reason of [_validation] is
    refused with an authentication error, or with a rate-limit error that is
    not about quota.  The translator returns the record as it was, without
    the quota signal and without a pause (the clock still reads [0]); the
    same errors on a top-level field raise the signal, respectively pause
    for 60. *)
Lemma translate_reason_not_escalated :
  Scripted.translate Scripted.flagged_record
      [Raise (AuthenticationError "Incorrect API key provided")]
    = (Ret Scripted.flagged_record, Scripted.MkWorld [] 0)
  /\ Scripted.translate Scripted.flagged_record
       [Raise (RateLimitError "Rate limit reached for requests")]
     = (Ret Scripted.flagged_record, Scripted.MkWorld [] 0)
  /\ Scripted.translate [("Answer", VStr "cuatro")]
       [Raise (AuthenticationError "Incorrect API key provided")]
     = (Raise (QuotaExceededException
                 "Authentication error during translation: Incorrect API key provided"),
        Scripted.MkWorld [] 0)
  /\ Scripted.translate [("Answer", VStr "cuatro")]
       [Raise (RateLimitError "Rate limit reached for requests")]
     = (Ret [("Answer", VStr "cuatro")], Scripted.MkWorld [] 60).
Proof. repeat split. Qed.

Lemma gpt_translate_text_frame_witness :
  Scripted.translate Scripted.processed_record
    [Ret (Some "What is 2+2?"); Ret (Some "correct")]
  = (Ret [("Question", VStr "What is 2+2?");
          ("Grade", VInt 3);
          ("Explanation", VStr "  ");
          ("_validation", VDict [("valid", VBool true); ("reason", VStr "correct")]);
          ("explanation_status", VStr "Answer is correct.")],
     Scripted.MkWorld [] 0)
  /\ dict_get "explanation_status"
       [("Question", VStr "What is 2+2?");
        ("Grade", VInt 3);
        ("Explanation", VStr "  ");
        ("_validation", VDict [("valid", VBool true); ("reason", VStr "correct")]);
        ("explanation_status", VStr "Answer is correct.")]
     = dict_get "explanation_status" Scripted.processed_record.
Proof.
  split; [reflexivity|].
  destruct (gpt_translate_text_frame (RT := Scripted.runtime)
              Scripted.processed_record "English"
              (Scripted.start [Ret (Some "What is 2+2?"); Ret (Some "correct")])
              processed_record_wf) as [_ Hframe].
  exact (proj1 (Hframe _ eq_refl)).
Defined.

Lemma gpt_translate_text_all_or_nothing_witness :
  Scripted.translate Scripted.processed_record
    [Ret (Some "What is 2+2?"); Raise (RateLimitError "insufficient_quota")]
  = (Raise (QuotaExceededException "Translation quota exceeded: insufficient_quota"),
     Scripted.MkWorld [] 0).
Proof.
  destruct (gpt_translate_text_all_or_nothing (RT := Scripted.runtime)
              Scripted.processed_record "English"
              (Scripted.start [Ret (Some "What is 2+2?");
                               Raise (RateLimitError "insufficient_quota")])
              processed_record_wf) as [_ Hstop].
  exact (proj1 (Hstop
    [("Question", VStr "Cuanto es 2+2?"); ("Grade", VInt 3); ("Explanation", VStr "  ")]
    "_validation" (VDict [("valid", VBool true); ("reason", VStr "correcto")])
    [("explanation_status", VStr "Answer is correct.")]
    _ _ _ _ eq_refl eq_refl eq_refl)).
Defined.

Lemma process_records_parallel_order_witness :
  exists results,
    Scripted.parallel [sum_record; sum_record] Scripted.both_answered = Ret results
    /\ length results = 2
    /\ results !! 0
       = Some (Some
           [("Question", VStr "2+2?"); ("Answer", VStr "5");
            ("Question Type", VStr "short");
            ("_validation", VDict [("valid", VBool true); ("reason", VStr "ok")]);
            ("explanation_status", VStr "Answer is correct.")]).
Proof.
  destruct (process_records_parallel_order (RT := Scripted.runtime)
              [sum_record; sum_record] 5 Scripted.both_answered)
    as (results & Hrun & Hlen & Hget).
  - reflexivity.
  - simpl. apply perm_swap.
  - intros [|[|i]] rec H; simpl in H; try discriminate H;
      injection H as <-; eexists; reflexivity.
  - exists results. split; [exact Hrun|]. split; [exact Hlen|].
    apply (Hget 0 sum_record); reflexivity.
Defined.

(** C1 fails as stated.  In both executions record 0 completes before
    record 1 raises the quota signal, with different results; the caller
    gets the same exception in both, so no way of reading the outcome gives
    back the completed result of record 0. *)
Lemma process_records_parallel_quota_counterexample :
  exists out_a out_b,
    fst (Scripted.validate sum_record [Ret (Some Scripted.text_valid)]) = Ret out_a
    /\ fst (Scripted.validate sum_record [Ret (Some (Scripted.text_fix "4"))]) = Ret out_b
    /\ partial_results (pool_exit [sum_record; sum_record]
                          (Scripted.quota_after Scripted.text_valid)) !! 0
       = Some (Some out_a)
    /\ partial_results (pool_exit [sum_record; sum_record]
                          (Scripted.quota_after (Scripted.text_fix "4"))) !! 0
       = Some (Some out_b)
    /\ Scripted.parallel [sum_record; sum_record]
         (Scripted.quota_after Scripted.text_valid)
       = Raise (QuotaExceededException
                  "OpenAI API quota exceeded: You exceeded your current quota")
    /\ ~ exists retrieve : res (list (option dict)) -> nat -> option dict,
           retrieve (Scripted.parallel [sum_record; sum_record]
                       (Scripted.quota_after Scripted.text_valid)) 0 = Some out_a
           /\ retrieve (Scripted.parallel [sum_record; sum_record]
                          (Scripted.quota_after (Scripted.text_fix "4"))) 0 = Some out_b.
Proof.
  do 2 eexists. do 5 (split; [reflexivity|]).
  intros (retrieve & Ha & Hb).
  change (Scripted.parallel [sum_record; sum_record]
            (Scripted.quota_after (Scripted.text_fix "4")))
    with (Scripted.parallel [sum_record; sum_record]
            (Scripted.quota_after Scripted.text_valid)) in Hb.
  rewrite Ha in Hb. discriminate Hb.
Qed.

Lemma process_records_parallel_quota_witness :
  Scripted.parallel [sum_record; sum_record]
    (Scripted.quota_after Scripted.text_valid)
  = Raise (QuotaExceededException
             "OpenAI API quota exceeded: You exceeded your current quota")
  /\ partial_results (pool_exit [sum_record; sum_record]
                        (Scripted.quota_after Scripted.text_valid)) !! 1
     = Some None.
Proof.
  destruct (process_records_parallel_quota (RT := Scripted.runtime)
              [sum_record; sum_record] 5
              (Scripted.quota_after Scripted.text_valid)
              [0] [] 1 sum_record
              "OpenAI API quota exceeded: You exceeded your current quota")
    as (Hraise & _ & _ & _ & Hnone).
  - reflexivity.
  - reflexivity.
  - intros j Hj. apply list_elem_of_singleton in Hj as ->.
    do 2 eexists. split; reflexivity.
  - reflexivity.
  - reflexivity.
  - split; [exact Hraise|]. apply Hnone; [simpl; lia|].
    intros H. apply list_elem_of_singleton in H. discriminate H.
Defined.

(** ** Strings: [find], [rfind], slices and [in] *)

Section StringFacts.
Implicit Types (a b p s t : string) (c : ascii).

Lemma str_app_assoc a b t : ((a ++ b) ++ t) = (a ++ (b ++ t)).
Proof. induction a as [|x a IH]; simpl; [done | by rewrite IH]. Qed.

Lemma str_app_nil_r a : (a ++ "") = a.
Proof. induction a as [|x a IH]; simpl; [done | by rewrite IH]. Qed.

Lemma str_length_app a b :
  String.length (a ++ b) = (String.length a + String.length b)%nat.
Proof. induction a as [|x a IH]; simpl; [done | by rewrite IH]. Qed.

Lemma str_prefix_app p s : str_prefix p (p ++ s) = true.
Proof.
  induction p as [|x p IH]; simpl; [done|]. by rewrite Ascii.eqb_refl.
Qed.

Lemma str_prefix_true p s : str_prefix p s = true -> exists t, s = p ++ t.
Proof.
  revert s. induction p as [|x p IH]; intros s; simpl; [eauto|].
  destruct s as [|y s]; [discriminate|].
  destruct (Ascii.eqb x y) eqn:E; [|discriminate].
  apply Ascii.eqb_eq in E as ->. intros [t ->]%IH. eauto.
Qed.

Lemma str_contains_unfold p s :
  str_contains p s =
  if str_prefix p s then true
  else match s with
       | EmptyString => false
       | String _ s' => str_contains p s'
       end.
Proof. by destruct s. Qed.

Lemma str_contains_app a p b : str_contains p (a ++ p ++ b) = true.
Proof.
  induction a as [|x a IH]; simpl.
  - by rewrite str_contains_unfold, str_prefix_app.
  - rewrite IH. by destruct (str_prefix p (String x (a ++ p ++ b))).
Qed.

Lemma str_contains_true p s :
  str_contains p s = true -> exists a b, s = a ++ p ++ b.
Proof.
  induction s as [|x s IH]; rewrite str_contains_unfold.
  - destruct (str_prefix p "") eqn:E; [|discriminate].
    apply str_prefix_true in E as [t ->]. intros _. by exists "", t.
  - destruct (str_prefix p (String x s)) eqn:E.
    + apply str_prefix_true in E as [t ->]. intros _. by exists "", t.
    + intros (a & b & ->)%IH. by exists (String x a), b.
Qed.

Lemma str_find_app_hit c a t :
  str_find c a = None -> str_find c (a ++ String c t) = Some (String.length a).
Proof.
  induction a as [|x a IH]; simpl.
  - by rewrite Ascii.eqb_refl.
  - destruct (Ascii.eqb x c); [discriminate|].
    destruct (str_find c a); [discriminate|]. intros _. by rewrite IH.
Qed.

Lemma str_rfind_app_hit c a t :
  str_rfind c t = None -> str_rfind c (a ++ String c t) = Some (String.length a).
Proof.
  intros Ht. induction a as [|x a IH]; simpl.
  - by rewrite Ht, Ascii.eqb_refl.
  - by rewrite IH.
Qed.

Lemma str_find_Some_split c s i :
  str_find c s = Some i ->
  exists a t, s = a ++ String c t /\ String.length a = i /\ str_find c a = None.
Proof.
  revert i. induction s as [|x s IH]; intros i; simpl; [discriminate|].
  destruct (Ascii.eqb x c) eqn:E.
  - apply Ascii.eqb_eq in E as ->. intros [= <-]. by exists "", s.
  - destruct (str_find c s) as [j|]; [|discriminate]. intros [= <-].
    destruct (IH j eq_refl) as (a & t & -> & <- & Ha).
    exists (String x a), t. simpl. by rewrite E, Ha.
Qed.

Lemma str_rfind_Some_split c s j :
  str_rfind c s = Some j ->
  exists a t, s = a ++ String c t /\ String.length a = j /\ str_rfind c t = None.
Proof.
  revert j. induction s as [|x s IH]; intros j; simpl; [discriminate|].
  destruct (str_rfind c s) as [k|] eqn:Hs.
  - intros [= <-]. destruct (IH k eq_refl) as (a & t & -> & <- & Ht).
    by exists (String x a), t.
  - destruct (Ascii.eqb x c) eqn:E; [|discriminate].
    apply Ascii.eqb_eq in E as ->. intros [= <-]. by exists "", s.
Qed.

Lemma substring_skip a t n :
  substring (String.length a) n (a ++ t) = substring 0 n t.
Proof. induction a as [|x a IH]; simpl; done. Qed.

Lemma substring_take a b : substring 0 (String.length a) (a ++ b) = a.
Proof.
  induction a as [|x a IH]; simpl.
  - by destruct b.
  - by rewrite IH.
Qed.

(** two ways of cutting the same string: the longer left part extends the
    shorter one *)
Lemma str_app_split_lt a b s t :
  (a ++ s) = (b ++ t) -> (String.length a < String.length b)%nat ->
  exists mid, b = a ++ mid /\ s = mid ++ t /\ mid <> "".
Proof.
  revert b. induction a as [|x a IH]; intros b; simpl.
  - intros -> Hlt. exists b. repeat split. intros ->. simpl in Hlt. lia.
  - destruct b as [|y b]; simpl; [lia|].
    intros [= -> H] Hlt. destruct (IH b H) as (mid & -> & -> & Hne); [lia|].
    by exists mid.
Qed.
End StringFacts.

(** ** The JSON span and the quota test *)

Section Extraction.
Context `{RT : Runtime}.

Lemma extract_span (before body after : string) :
  str_find "{" before = None ->
  str_rfind "}" after = None ->
  extract_json_substring (before ++ "{" ++ body ++ "}" ++ after)
  = "{" ++ body ++ "}".
Proof.
  intros Hb Ha. unfold extract_json_substring.
  change (before ++ "{" ++ body ++ "}" ++ after)
    with (before ++ String "{" (body ++ String "}" after)).
  rewrite (str_find_app_hit _ _ _ Hb).
  replace (before ++ String "{" (body ++ String "}" after))
    with ((before ++ String "{" body) ++ String "}" after)
    by (by rewrite str_app_assoc).
  rewrite (str_rfind_app_hit _ _ _ Ha), str_length_app. simpl.
  destruct (Nat.ltb_spec (String.length before)
              (String.length before + S (String.length body))); [|lia].
  rewrite str_app_assoc. simpl.
  replace (String.length before + S (String.length body) + 1 - String.length before)%nat
    with (String.length (String "{" (body ++ "}"))) by (simpl; rewrite str_length_app; simpl; lia).
  rewrite substring_skip.
  change (String "{" (body ++ String "}" after))
    with (String "{" (body ++ "}" ++ after)).
  replace (String "{" (body ++ "}" ++ after))
    with (String "{" (body ++ "}") ++ after)
    by (simpl; by rewrite str_app_assoc).
  apply substring_take.
Qed.

Lemma extract_shape (s : string) :
  extract_json_substring s = s
  \/ exists before body after,
       s = before ++ "{" ++ body ++ "}" ++ after
       /\ str_find "{" before = None
       /\ str_rfind "}" after = None
       /\ extract_json_substring s = "{" ++ body ++ "}".
Proof.
  destruct (str_find "{" s) as [i|] eqn:Hf;
    [|left; unfold extract_json_substring; by rewrite Hf].
  destruct (str_rfind "}" s) as [j|] eqn:Hr;
    [|left; unfold extract_json_substring; by rewrite Hf, Hr].
  destruct (Nat.ltb_spec i j) as [Hlt|Hge];
    [|left; unfold extract_json_substring; rewrite Hf, Hr;
      by destruct (Nat.ltb_spec i j); [lia|]].
  right.
  destruct (str_find_Some_split _ _ _ Hf) as (before & rest & Hs & Hi & Hbefore).
  destruct (str_rfind_Some_split _ _ _ Hr) as (upto & after & Hs' & Hj & Hafter).
  subst i j. rewrite Hs in Hs'.
  destruct (str_app_split_lt _ _ _ _ Hs' Hlt) as (mid & -> & Hrest & Hne).
  destruct mid as [|x body]; [done|]. simpl in Hrest. injection Hrest as <- ->.
  exists before, body, after.
  assert (Heq : s = before ++ "{" ++ body ++ "}" ++ after) by (by rewrite Hs).
  repeat split; [done..|]. rewrite Heq. by apply extract_span.
Qed.

(** X1. When the text before the object has no opening brace and the text
    after it has no closing brace, [extract_json_substring] returns the
    object, whatever lies between its outer braces. *)
Theorem extract_json_substring_span (before body after : string) :
  str_find "{" before = None ->
  str_rfind "}" after = None ->
  extract_json_substring (before ++ "{" ++ body ++ "}" ++ after)
  = "{" ++ body ++ "}".
Proof.
  intros Hb Ha. unfold extract_json_substring.
  change (before ++ "{" ++ body ++ "}" ++ after)
    with (before ++ String "{" (body ++ String "}" after)).
  rewrite (str_find_app_hit _ _ _ Hb).
  replace (before ++ String "{" (body ++ String "}" after))
    with ((before ++ String "{" body) ++ String "}" after)
    by (by rewrite str_app_assoc).
  rewrite (str_rfind_app_hit _ _ _ Ha), str_length_app. simpl.
  destruct (Nat.ltb_spec (String.length before)
              (String.length before + S (String.length body))); [|lia].
  rewrite str_app_assoc. simpl.
  replace (String.length before + S (String.length body) + 1 - String.length before)%nat
    with (String.length (String "{" (body ++ "}"))) by (simpl; rewrite str_length_app; simpl; lia).
  rewrite substring_skip.
  change (String "{" (body ++ String "}" after))
    with (String "{" (body ++ "}" ++ after)).
  replace (String "{" (body ++ "}" ++ after))
    with (String "{" (body ++ "}") ++ after)
    by (simpl; by rewrite str_app_assoc).
  apply substring_take.
Qed.

(** X2. [extract_json_substring] returns its argument unchanged, or the
    piece of it from the first opening brace to the last closing brace: the
    result is always a contiguous part of the response. *)
Theorem extract_json_substring_shape (s : string) :
  (extract_json_substring s = s
   \/ exists before body after,
        s = before ++ "{" ++ body ++ "}" ++ after
        /\ str_find "{" before = None
        /\ str_rfind "}" after = None
        /\ extract_json_substring s = "{" ++ body ++ "}")
  /\ exists before after, s = before ++ extract_json_substring s ++ after.
Proof.
  split; [apply extract_shape|].
  destruct (extract_shape s) as [->|(before & body & after & Hs & _ & _ & ->)].
  - exists "", "". simpl. by rewrite str_app_nil_r.
  - exists before, after. rewrite Hs. f_equal. simpl. f_equal.
    by rewrite str_app_assoc.
Qed.

(** X3. Extracting twice gives what extracting once gives. *)
Theorem extract_json_substring_idempotent (s : string) :
  extract_json_substring (extract_json_substring s) = extract_json_substring s.
Proof.
  destruct (extract_shape s) as [H|(before & body & after & _ & _ & _ & H)];
    rewrite H.
  - exact H.
  - apply (extract_span "" body ""); reflexivity.
Qed.

(** X4. The quota test of the error handlers looks for ["quota"] alone in
    the lowercased message: a message with ["insufficient_quota"] has
    ["quota"] in it, so the first test of the [or] adds nothing. *)
Theorem is_quota_contains_quota (error_msg : string) :
  is_quota error_msg = str_contains "quota" (str_lower error_msg).
Proof.
  unfold is_quota.
  destruct (str_contains "insufficient_quota" (str_lower error_msg)) eqn:E;
    [|done].
  apply str_contains_true in E as (a & b & Hm). rewrite Hm.
  replace (a ++ "insufficient_quota" ++ b)
    with ((a ++ "insufficient_") ++ "quota" ++ b)
    by (by rewrite str_app_assoc).
  by rewrite str_contains_app.
Qed.
End Extraction.

(** ** The field mapper *)

Section AssocMore.
Context {V : Type}.
Implicit Types (k : string) (v : V) (d : list (string * V)).

Lemma dict_get_app k d1 d2 :
  dict_get k (d1 ++ d2)%list =
  match dict_get k d1 with Some v => Some v | None => dict_get k d2 end.
Proof.
  induction d1 as [|[k0 v0] d1 IH]; simpl; [done|].
  by destruct (String.eqb k k0).
Qed.

Lemma dict_get_set k k' v d :
  dict_get k' (dict_set k v d) =
  if String.eqb k' k then Some v else dict_get k' d.
Proof.
  destruct (String.eqb k' k) eqn:E.
  - apply String.eqb_eq in E as ->. apply dict_get_set_eq.
  - apply String.eqb_neq in E. by apply dict_get_set_ne.
Qed.

Lemma dict_keys_set k v d :
  dict_keys (dict_set k v d) =
  if decide (k ∈ dict_keys d) then dict_keys d else (dict_keys d ++ [k])%list.
Proof.
  induction d as [|[k0 v0] d IH].
  - destruct (decide (k ∈ dict_keys [])) as [H|H]; [|done].
    by apply elem_of_nil in H.
  - simpl dict_set. destruct (String.eqb k k0) eqn:E.
    + apply String.eqb_eq in E as ->.
      destruct (decide (k0 ∈ dict_keys ((k0, v0) :: d))) as [H|H]; [done|].
      exfalso. apply H. left.
    + apply String.eqb_neq in E.
      change (dict_keys ((k0, v0) :: dict_set k v d))
        with (k0 :: dict_keys (dict_set k v d)).
      rewrite IH.
      destruct (decide (k ∈ dict_keys d)) as [Hin|Hnin];
        destruct (decide (k ∈ dict_keys ((k0, v0) :: d))) as [Hin'|Hnin'];
        try done.
      * exfalso. apply Hnin'. by right.
      * apply elem_of_cons in Hin' as [?|?]; done.
Qed.

Lemma dict_get_not_key k d : k ∉ dict_keys d -> dict_get k d = None.
Proof.
  induction d as [|[k0 v0] d IH]; simpl; [done|].
  intros [Hne Hnin]%not_elem_of_cons.
  apply String.eqb_neq in Hne. rewrite Hne. by apply IH.
Qed.

Lemma dict_keys_set_prefix k v d :
  dict_keys d `prefix_of` dict_keys (dict_set k v d).
Proof.
  rewrite dict_keys_set. destruct (decide (k ∈ dict_keys d)); [done|].
  by apply prefix_app_r.
Qed.

Lemma dict_set_wf k v d : dict_wf d -> dict_wf (dict_set k v d).
Proof.
  unfold dict_wf. rewrite dict_keys_set.
  destruct (decide (k ∈ dict_keys d)) as [Hin|Hnin]; [done|].
  intros Hwf. apply NoDup_app. split; [done|]. split.
  - intros x Hx Hk. apply list_elem_of_singleton in Hk as ->. done.
  - apply NoDup_singleton.
Qed.
End AssocMore.

Lemma elem_of_rev {A} (x : A) (l : list A) : x ∈ rev l <-> x ∈ l.
Proof. rewrite !list_elem_of_In. symmetry. apply in_rev. Qed.

Section Mapper.
Context `{RT : Runtime}.

(** the last entry among those whose keys normalise alike is the one kept *)
Lemma normalize_fold_get (n : string) (record acc : dict) :
  dict_get n (fold_left
                (fun acc kv => dict_set (normalize_key (fst kv)) (snd kv) acc)
                record acc) =
  match dict_get n (map (fun kv => (normalize_key (fst kv), snd kv)) (rev record)) with
  | Some v => Some v
  | None => dict_get n acc
  end.
Proof.
  revert acc. induction record as [|[k v] record IH]; intros acc; simpl; [done|].
  rewrite IH, map_app, dict_get_app. simpl.
  destruct (dict_get n (map (fun kv => (normalize_key (fst kv), snd kv)) (rev record)));
    [done|].
  rewrite dict_get_set. by destruct (String.eqb n (normalize_key k)).
Qed.

Lemma dict_get_map_elem (n : string) (v : value) (l : dict) :
  dict_get n (map (fun kv => (normalize_key (fst kv), snd kv)) l) = Some v ->
  exists k, (k, v) ∈ l /\ normalize_key k = n.
Proof.
  induction l as [|[k0 v0] l IH]; simpl; [done|].
  destruct (String.eqb n (normalize_key k0)) eqn:E.
  - apply String.eqb_eq in E. intros [= ->]. exists k0. split; [left | done].
  - intros (k & Hin & Hk)%IH. exists k. split; [by right | done].
Qed.

Lemma dict_get_map_none (n : string) (l : dict) :
  (forall k v, (k, v) ∈ l -> normalize_key k <> n) ->
  dict_get n (map (fun kv => (normalize_key (fst kv), snd kv)) l) = None.
Proof.
  induction l as [|[k0 v0] l IH]; intros Hno; simpl; [done|].
  destruct (String.eqb n (normalize_key k0)) eqn:E.
  - apply String.eqb_eq in E. exfalso. apply (Hno k0 v0); [left | done].
  - apply IH. intros k v Hin. apply (Hno k v). by right.
Qed.

Lemma normalize_record_get (n : string) (record : dict) :
  dict_get n (normalize_record record) =
  dict_get n (map (fun kv => (normalize_key (fst kv), snd kv)) (rev record)).
Proof.
  unfold normalize_record. rewrite normalize_fold_get. simpl.
  by destruct (dict_get n _).
Qed.

Lemma normalize_record_elem (n : string) (v : value) (record : dict) :
  dict_get n (normalize_record record) = Some v ->
  exists k, (k, v) ∈ record /\ normalize_key k = n.
Proof.
  rewrite normalize_record_get. intros (k & Hin & Hk)%dict_get_map_elem.
  exists k. split; [|done]. exact (proj1 (elem_of_rev _ _) Hin).
Qed.

Lemma normalize_record_none (n : string) (record : dict) :
  (forall k v, (k, v) ∈ record -> normalize_key k <> n) ->
  dict_get n (normalize_record record) = None.
Proof.
  intros Hno. rewrite normalize_record_get. apply dict_get_map_none.
  intros k v Hin. apply (Hno k v). exact (proj1 (elem_of_rev _ _) Hin).
Qed.

Lemma first_present_elem (keys : list string) (nr : dict) (v : value) :
  first_present keys nr = Some v ->
  exists alt, alt ∈ keys /\ dict_get (normalize_key alt) nr = Some v.
Proof.
  induction keys as [|k keys IH]; simpl; [done|].
  destruct (dict_get (normalize_key k) nr) as [v0|] eqn:E.
  - intros [= ->]. exists k. split; [left | done].
  - intros (alt & Hin & Halt)%IH. exists alt. split; [by right | done].
Qed.

(** a mapped value is the empty string or a value of the record *)
Lemma map_field_origin (record : dict) (eng_key local_key : string) :
  let v := map_field (normalize_record record) eng_key local_key in
  v = VStr "" \/ exists k, (k, v) ∈ record.
Proof.
  cbv zeta. unfold map_field, dict_get_default.
  destruct (dict_get (normalize_key local_key) (normalize_record record))
    as [val|] eqn:Hval.
  - destruct (truthy val).
    + right. apply normalize_record_elem in Hval as (k & Hin & _). eauto.
    + destruct (first_present _ _) as [v|] eqn:Hfp.
      * right. apply first_present_elem in Hfp as (alt & _ & Halt).
        apply normalize_record_elem in Halt as (k & Hin & _). eauto.
      * right. apply normalize_record_elem in Hval as (k & Hin & _). eauto.
  - simpl. destruct (first_present _ _) as [v|] eqn:Hfp; [|by left].
    right. apply first_present_elem in Hfp as (alt & _ & Halt).
    apply normalize_record_elem in Halt as (k & Hin & _). eauto.
Qed.

Lemma map_record_fields_get (record : dict) (language : value)
    (eng_key local_key : string) :
  (eng_key, local_key) ∈ get_key_map_for_language language ->
  dict_get eng_key (map_record_fields record (get_key_map_for_language language))
  = Some (map_field (normalize_record record) eng_key local_key).
Proof.
  intros Hin. unfold get_key_map_for_language in Hin. simpl in Hin.
  repeat (apply elem_of_cons in Hin as [[= -> ->]|Hin]; [reflexivity|]).
  by apply elem_of_nil in Hin.
Qed.

(** X5. Whatever the record, the mapping has exactly the eleven canonical
    fields, in the order of the key map, and each mapped value is the empty
    string or a value found in the record; so the defaults that
    [validate_record] passes to [mapped.get], ["unspecified"] among them,
    are never used. *)
Theorem map_record_fields_canonical (record : dict) (language : value) :
  let mapped := map_record_fields record (get_key_map_for_language language) in
  dict_keys mapped =
    ["question"; "discipline"; "language"; "grade"; "explanation";
     "competition_name"; "competition_year"; "question_number";
     "difficulty"; "question_type"; "answer"]%list
  /\ (forall eng_key v, dict_get eng_key mapped = Some v ->
        v = VStr "" \/ exists k, (k, v) ∈ record)
  /\ dict_get_default "question_type" (VStr "unspecified") mapped
     = map_field (normalize_record record) "question_type" "Question Type".
Proof.
  cbv zeta. split; [reflexivity|]. split; [|reflexivity].
  intros eng_key v Hget.
  assert (Hkey : eng_key ∈ dict_keys
            (map_record_fields record (get_key_map_for_language language))).
  { destruct (decide (eng_key ∈ dict_keys
       (map_record_fields record (get_key_map_for_language language))))
      as [H|H]; [done|].
    apply dict_get_not_key in H. congruence. }
  change (dict_keys (map_record_fields record (get_key_map_for_language language)))
    with ["question"; "discipline"; "language"; "grade"; "explanation";
          "competition_name"; "competition_year"; "question_number";
          "difficulty"; "question_type"; "answer"]%list in Hkey.
  repeat (apply elem_of_cons in Hkey as [->|Hkey];
          [injection Hget as <-; apply map_field_origin|]).
  by apply elem_of_nil in Hkey.
Qed.

(** X6. A canonical field for which the record has no key that normalises
    like its English label or like one of its fallback spellings is mapped
    to the empty string. *)
Theorem map_record_fields_missing (record : dict) (language : value)
    (eng_key local_key : string) :
  (eng_key, local_key) ∈ get_key_map_for_language language ->
  (forall k v, (k, v) ∈ record ->
     normalize_key k <> normalize_key local_key
     /\ forall alt, alt ∈ fallback_keys eng_key ->
                    normalize_key k <> normalize_key alt) ->
  dict_get eng_key (map_record_fields record (get_key_map_for_language language))
  = Some (VStr "").
Proof.
  intros Hin Hno. rewrite (map_record_fields_get _ _ _ _ Hin). f_equal.
  unfold map_field, dict_get_default.
  rewrite normalize_record_none by (intros k v Hkv; exact (proj1 (Hno k v Hkv))).
  simpl.
  destruct (first_present _ _) as [v|] eqn:Hfp; [|done].
  apply first_present_elem in Hfp as (alt & Halt & Hget).
  apply normalize_record_elem in Hget as (k & Hkv & Hk).
  destruct (Hno _ _ Hkv) as [_ Hne]. by destruct (Hne alt Halt).
Qed.

(** X7. When several keys of a record normalise to the same key, the value
    of the last of them is the one the mapper sees. *)
Theorem normalize_record_last_wins (record : dict) (n : string) :
  dict_get n (normalize_record record) =
  dict_get n (map (fun kv => (normalize_key (fst kv), snd kv)) (rev record)).
Proof.
  unfold normalize_record. rewrite normalize_fold_get. simpl.
  by destruct (dict_get n _).
Qed.

(** X8. When the fallback spellings of a field normalise like its label, as
    the spellings of [FALLBACK_KEYS] do under [lower], the fallback loop
    changes nothing: the mapped value is the value under the normalised
    label, or the empty string. *)
Theorem map_field_fallback_redundant (record : dict) (eng_key local_key : string) :
  (forall alt, alt ∈ fallback_keys eng_key ->
               normalize_key alt = normalize_key local_key) ->
  map_field (normalize_record record) eng_key local_key
  = dict_get_default (normalize_key local_key) (VStr "") (normalize_record record).
Proof.
  intros Hsame. unfold map_field.
  destruct (truthy _); [done|].
  destruct (first_present _ _) as [v|] eqn:Hfp; [|done].
  apply first_present_elem in Hfp as (alt & Halt & Hget).
  rewrite (Hsame _ Halt) in Hget. unfold dict_get_default. by rewrite Hget.
Qed.
End Mapper.

(** ** More on the validator *)

Section ValidatorMore.
Context `{RT : Runtime}.

(** the question type [validate_record] passes to [call_openai] *)
Lemma model_outcome_unfold (record : dict) (w : World) :
  model_outcome record w =
  call_openai
    (map_field (normalize_record record) "question" "Question")
    (map_field (normalize_record record) "answer" "Answer")
    (map_field (normalize_record record) "question_type" "Question Type") w.
Proof. reflexivity. Qed.

Lemma get_system_prompt_raise (question_type : value) (e : exn) :
  get_system_prompt question_type = Raise e ->
  e = no_attribute question_type "lower" /\ forall s, question_type <> VStr s.
Proof.
  destruct question_type; simpl; try (intros [= <-]; split; [done|]; done).
  repeat match goal with
         | |- context [if ?b then _ else _] => destruct b
         end; discriminate.
Qed.

Lemma call_openai_raise (question answer question_type : value)
    (w w' : World) (e : exn) :
  call_openai question answer question_type w = (Raise e, w') ->
  (get_system_prompt question_type = Raise e /\ w' = w)
  \/ exists m, e = QuotaExceededException m.
Proof.
  unfold call_openai.
  destruct (get_system_prompt question_type) as [sp|e0]; [|intros [= <- <-]; by left].
  destruct (call_openai_try sp (user_prompt question answer) w) as [[v|e1] w1];
    [discriminate|].
  destruct e1; try discriminate.
  destruct (is_quota msg); [|discriminate]. intros [= <- _]. right. eauto.
Qed.

Lemma validate_record_ret_inv (record out : dict) (w w' : World) :
  validate_record record w = (Ret out, w') ->
  exists result,
    model_outcome record w = (Ret (VDict result), w')
    /\ (out = dict_set "explanation_status" (VStr "Answer is correct.")
                (dict_set "_validation" (passed result) record)
        \/ out = dict_set "_validation" (flagged result)
                   (corrected_record result record)).
Proof.
  rewrite validate_record_outcome.
  destruct (model_outcome record w) as [[v|e] w1]; [|discriminate].
  intros [= H <-]. destruct v; try discriminate H.
  exists d. split; [done|].
  destruct (truthy (dict_get_default "valid" (VBool false) d)) eqn:Hv.
  - left. unfold attach_result in H. rewrite Hv in H. by injection H as <-.
  - right. rewrite (attach_result_invalid _ _ _ Hv) in H. by injection H as <-.
Qed.

Lemma corrected_record_prefix (result record : dict) :
  dict_keys record `prefix_of` dict_keys (corrected_record result record).
Proof.
  unfold corrected_record. cbv zeta.
  destruct (truthy (dict_get_default "corrected_answer" VNull result));
    destruct (truthy (dict_get_default "corrected_explanation" VNull result));
    repeat (etrans; [|apply dict_keys_set_prefix]); done.
Qed.

Lemma corrected_record_wf (result record : dict) :
  dict_wf record -> dict_wf (corrected_record result record).
Proof.
  intros Hwf. unfold corrected_record. cbv zeta.
  destruct (truthy (dict_get_default "corrected_answer" VNull result));
    destruct (truthy (dict_get_default "corrected_explanation" VNull result));
    repeat apply dict_set_wf; done.
Qed.

Lemma corrected_record_frame (result record : dict) (k : string) :
  k <> "Answer" -> k <> "Explanation" -> k <> "explanation_status" ->
  dict_get k (corrected_record result record) = dict_get k record.
Proof.
  intros H1 H2 H3. unfold corrected_record. cbv zeta.
  destruct (truthy (dict_get_default "corrected_answer" VNull result));
    destruct (truthy (dict_get_default "corrected_explanation" VNull result));
    rewrite ?dict_get_set_ne by congruence; done.
Qed.

(** X9. Whenever [validate_record] returns, its output keeps the keys of
    the input in their order (new keys are appended), stays a dict, has a
    [_validation] entry with a boolean [valid], and differs from the input
    under no key other than [Answer], [Explanation], [explanation_status]
    and [_validation]: an answer stored under another spelling of the key,
    such as [answer], is left as it was. *)
Theorem validate_record_frame (record out : dict) (w w' : World) :
  validate_record record w = (Ret out, w') ->
  (forall k, k <> "Answer" -> k <> "Explanation" ->
             k <> "explanation_status" -> k <> "_validation" ->
             dict_get k out = dict_get k record)
  /\ dict_keys record `prefix_of` dict_keys out
  /\ (dict_wf record -> dict_wf out)
  /\ exists validation b,
       dict_get "_validation" out = Some (VDict validation)
       /\ dict_get "valid" validation = Some (VBool b).
Proof.
  intros (result & _ & [-> | ->])%validate_record_ret_inv.
  - split; [|split; [|split]].
    + intros k _ _ H3 H4. by rewrite !dict_get_set_ne by congruence.
    + etrans; apply dict_keys_set_prefix.
    + intros Hwf. by do 2 apply dict_set_wf.
    + exists [("valid", VBool true); ("reason", dict_get_default "reason" VNull result)], true.
      split; [|done]. rewrite dict_get_set_ne by done. apply dict_get_set_eq.
  - split; [|split; [|split]].
    + intros k H1 H2 H3 H4. rewrite dict_get_set_ne by congruence.
      by apply corrected_record_frame.
    + etrans; [apply corrected_record_prefix | apply dict_keys_set_prefix].
    + intros Hwf. by apply dict_set_wf, corrected_record_wf.
    + eexists _, false. split; [apply dict_get_set_eq | done].
Qed.

(** X10. [validate_record] raises in three ways only: the quota signal; an
    [AttributeError] before any call is made, when the mapped question type
    is not a string; an [AttributeError] after the call, when the value
    parsed from the response is not a JSON object. *)
Theorem validate_record_raises (record : dict) (w w' : World) (e : exn) :
  validate_record record w = (Raise e, w') ->
  (exists m, e = QuotaExceededException m)
  \/ (e = no_attribute
            (map_field (normalize_record record) "question_type" "Question Type")
            "lower"
      /\ w' = w
      /\ forall s, map_field (normalize_record record) "question_type" "Question Type"
                   <> VStr s)
  \/ (exists v, model_outcome record w = (Ret v, w')
                /\ is_dict v = false
                /\ e = no_attribute v "get").
Proof.
  rewrite validate_record_outcome.
  destruct (model_outcome record w) as [[v|e0] w1] eqn:Ho.
  - intros [= H <-]. right. right. exists v. split; [done|].
    destruct v; try (simpl in H; injection H as <-; by split).
    exfalso. destruct (truthy (dict_get_default "valid" (VBool false) d)) eqn:Hv.
    + unfold attach_result in H. by rewrite Hv in H.
    + by rewrite (attach_result_invalid _ _ _ Hv) in H.
  - intros [= <- <-]. rewrite model_outcome_unfold in Ho.
    apply call_openai_raise in Ho as [[Hsp ->]|?]; [|by left].
    right. left. apply get_system_prompt_raise in Hsp as [-> Hns]. done.
Qed.

(** X11. A record whose question type is not a string (a number, null, a
    nested object) makes [validate_record] raise [AttributeError] without
    calling the model. *)
Theorem validate_record_question_type (record : dict) (w : World) :
  (forall s, map_field (normalize_record record) "question_type" "Question Type"
             <> VStr s) ->
  validate_record record w =
    (Raise (no_attribute
              (map_field (normalize_record record) "question_type" "Question Type")
              "lower"), w).
Proof.
  intros Hns. rewrite validate_record_outcome, model_outcome_unfold.
  unfold call_openai.
  destruct (map_field (normalize_record record) "question_type" "Question Type");
    try reflexivity.
  by destruct (Hns s).
Qed.

(** X12. When the call degrades (a rate-limit error without quota, an
    authentication error, any other exception, an unparseable response),
    [validate_record] returns the record with its fields untouched, flagged
    [{valid: false, reason, corrected: true}] and with the status
    ["Explanation is already correct."]: a failed call is reported as a
    corrected record. *)
Theorem validate_record_degraded (record : dict) (reason : string) (w w' : World) :
  model_outcome record w = (Ret (degraded reason), w') ->
  validate_record record w =
    (Ret (dict_set "_validation"
            (VDict [("valid", VBool false); ("reason", VStr reason);
                    ("corrected", VBool true)])
            (dict_set "explanation_status"
                      (VStr "Explanation is already correct.") record)), w').
Proof.
  intros Ho. by rewrite (validate_record_invalid _ _ _ _ Ho).
Qed.
End ValidatorMore.

(** ** The validation call and what reaches its caller *)

Section ValidationCall.
Context `{RT : Runtime}.

End ValidationCall.

(** ** More on the translator *)

Section LoopMore.
Context `{RT : Runtime}.
Variable body : string -> value -> M value.

(** a loop whose iterations give back what they are given and leave the
    world alone copies the items *)
Lemma for_items_copy (items out : dict) (w : World) :
  (forall k v, (k, v) ∈ items -> forall w0, body k v w0 = (Ret v, w0)) ->
  NoDup (dict_keys out ++ dict_keys items) ->
  for_items body items out w = (Ret (out ++ items)%list, w).
Proof.
  revert out. induction items as [|[k v] items IH]; intros out Hid Hnd; simpl.
  - by rewrite app_nil_r.
  - unfold bind_m. rewrite (Hid k v) by left.
    assert (Hfresh : k ∉ dict_keys out).
    { apply NoDup_app in Hnd as (_ & Hdis & _). intros Hin.
      apply (Hdis _ Hin). left. }
    rewrite dict_set_fresh by done.
    rewrite IH.
    + by rewrite <- app_assoc.
    + intros k' v' Hin. apply Hid. by right.
    + unfold dict_keys. rewrite map_app, <- app_assoc. exact Hnd.
Qed.
End LoopMore.

Section TranslatorMore.
Context `{RT : Runtime}.
Implicit Types (target : string) (w : World).

Lemma translate_validation_item_kept target k v w :
  translatable_reason k v = None ->
  translate_validation_item target k v w = (Ret v, w).
Proof. intros H. unfold translate_validation_item. by rewrite H. Qed.

(** X13. A record with nothing to translate (every value is
    [explanation_status], not a string, a blank string, or a [_validation]
    object without a non-blank string reason) is returned as it is, and no
    call is made. *)
Theorem gpt_translate_text_nothing_to_translate (record : dict) target w :
  dict_wf record ->
  (forall k v, (k, v) ∈ record ->
     k = "explanation_status"
     \/ (kept_as_is v = true /\ (k = "_validation" -> is_dict v = false))
     \/ (k = "_validation"
         /\ exists vd, v = VDict vd /\ dict_wf vd
              /\ forall sk sv, (sk, sv) ∈ vd -> translatable_reason sk sv = None)) ->
  gpt_translate_text record target w = (Ret record, w).
Proof.
  intros Hwf Hnothing. unfold gpt_translate_text, translate_items.
  rewrite for_items_copy; [done| |done].
  intros k v Hin w0. destruct (Hnothing k v Hin) as [->|[[Hk Hv]|(-> & vd & -> & Hwfvd & Hvd)]].
  - apply translate_item_status.
  - by apply translate_item_kept.
  - unfold translate_item. simpl. unfold bind_m, translate_validation.
    rewrite for_items_copy; [done| |done].
    intros sk sv Hsk w1. apply translate_validation_item_kept. by eapply Hvd.
Qed.

Lemma translate_reason_raise_call target (val_value : string) w w' e :
  translate_reason target val_value w = (Raise e, w') ->
  exists m,
    chat_create (reason_request target val_value) w = (Raise (RateLimitError m), w')
    /\ is_quota m = true
    /\ e = QuotaExceededException ("Translation quota exceeded: " ++ m).
Proof.
  unfold translate_reason, translation_try.
  destruct (chat_create (reason_request target val_value) w) as [[[text|]|e0] w1];
    try discriminate.
  destruct e0; try discriminate.
  destruct (is_quota msg) eqn:Hq; [|discriminate].
  intros [= <- <-]. eauto.
Qed.

Lemma translate_value_raise_call target (val : string) w w' e :
  translate_value target val w = (Raise e, w') ->
  exists m,
    (chat_create (field_request target val) w = (Raise (RateLimitError m), w')
     /\ is_quota m = true
     /\ e = QuotaExceededException ("Translation quota exceeded: " ++ m))
    \/ (chat_create (field_request target val) w = (Raise (AuthenticationError m), w')
        /\ e = QuotaExceededException
                 ("Authentication error during translation: " ++ m)).
Proof.
  unfold translate_value, translation_try.
  destruct (chat_create (field_request target val) w) as [[[text|]|e0] w1];
    try discriminate.
  destruct e0; try discriminate.
  - destruct (is_quota msg) eqn:Hq; [|discriminate].
    intros [= <- <-]. exists msg. by left.
  - intros [= <- <-]. exists msg. by right.
Qed.

Lemma translatable_reason_Some (val_key : string) (val_value : value) (s : string) :
  translatable_reason val_key val_value = Some s ->
  val_key = "reason" /\ val_value = VStr s.
Proof.
  unfold translatable_reason. destruct val_value; try discriminate.
  destruct (String.eqb val_key "reason") eqn:E; [|discriminate].
  apply String.eqb_eq in E as ->. simpl.
  destruct (String.eqb (str_strip s0) ""); [discriminate|].
  by intros [= ->].
Qed.

(** one iteration on a top-level string that is to be translated *)
Lemma translate_item_string target (key s : string) w :
  key <> "explanation_status" -> kept_as_is (VStr s) = false ->
  translate_item target key (VStr s) w = translate_value target s w.
Proof.
  intros Hne%String.eqb_neq Hkept. unfold translate_item.
  rewrite Hne, Hkept. by destruct (String.eqb key "_validation").
Qed.

(** X14. [gpt_translate_text] raises only at a call of its run: at a
    field of the record, in the world the fields before it left, the
    client raised a rate-limit error with ["quota"] in its message (for the
    field's text, or for the reason of [_validation] after the entries
    before it) or an authentication error (for a field's text only).  Every
    other failure of a call leaves the original text in place: for a
    field's text after a pause of 60 when it is a rate-limit error, for the
    reason without pause, also when it is an authentication error. *)
Theorem gpt_translate_text_raises_on_call (record : dict) target w :
  (forall e w',
     gpt_translate_text record target w = (Raise e, w') ->
     exists pre key val post built w1,
       record = (pre ++ (key, val) :: post)%list
       /\ translate_items target pre [] w = (Ret built, w1)
       /\ ((exists s m,
               val = VStr s
               /\ chat_create (field_request target s) w1
                  = (Raise (RateLimitError m), w')
               /\ is_quota m = true
               /\ e = QuotaExceededException ("Translation quota exceeded: " ++ m))
           \/ (exists s m,
                  val = VStr s
                  /\ chat_create (field_request target s) w1
                     = (Raise (AuthenticationError m), w')
                  /\ e = QuotaExceededException
                           ("Authentication error during translation: " ++ m))
           \/ (exists vd pre' s post' built' w2 m,
                  key = "_validation" /\ val = VDict vd
                  /\ vd = (pre' ++ ("reason", VStr s) :: post')%list
                  /\ translate_validation target pre' [] w1 = (Ret built', w2)
                  /\ chat_create (reason_request target s) w2
                     = (Raise (RateLimitError m), w')
                  /\ is_quota m = true
                  /\ e = QuotaExceededException
                           ("Translation quota exceeded: " ++ m))))
  /\ (forall key s w0,
        key <> "explanation_status" -> kept_as_is (VStr s) = false ->
        let c := chat_create (field_request target s) w0 in
        translate_item target key (VStr s) w0 =
        match fst c with
        | Ret (Some text) => (Ret (VStr (str_strip text)), snd c)
        | Ret None => (Ret (VStr s), snd c)
        | Raise (RateLimitError m) =>
            if is_quota m
            then (Raise (QuotaExceededException
                           ("Translation quota exceeded: " ++ m)), snd c)
            else (Ret (VStr s), sleep 60 (snd c))
        | Raise (AuthenticationError m) =>
            (Raise (QuotaExceededException
                      ("Authentication error during translation: " ++ m)), snd c)
        | Raise _ => (Ret (VStr s), snd c)
        end)
  /\ (forall s w0,
        translatable_reason "reason" (VStr s) = Some s ->
        let c := chat_create (reason_request target s) w0 in
        translate_validation_item target "reason" (VStr s) w0 =
        match fst c with
        | Ret (Some text) => (Ret (VStr (str_strip text)), snd c)
        | Raise (RateLimitError m) =>
            if is_quota m
            then (Raise (QuotaExceededException
                           ("Translation quota exceeded: " ++ m)), snd c)
            else (Ret (VStr s), snd c)
        | _ => (Ret (VStr s), snd c)
        end).
Proof.
  split; [|split].
  - intros e w' H.
    apply for_items_raise in H as (pre & k & v & post & built & w1 & Hrec & Hpre & H).
    exists pre, k, v, post, built, w1. split; [done|]. split; [done|].
    unfold translate_item in H.
    assert (Hplain :
      (if String.eqb k "explanation_status" then ret_m v
       else if kept_as_is v then ret_m v
       else match v with
            | VStr s => translate_value target s
            | _ => ret_m v
            end) w1 = (Raise e, w') ->
      (exists s m,
         v = VStr s
         /\ chat_create (field_request target s) w1 = (Raise (RateLimitError m), w')
         /\ is_quota m = true
         /\ e = QuotaExceededException ("Translation quota exceeded: " ++ m))
      \/ (exists s m,
            v = VStr s
            /\ chat_create (field_request target s) w1
               = (Raise (AuthenticationError m), w')
            /\ e = QuotaExceededException
                     ("Authentication error during translation: " ++ m))).
    { destruct (String.eqb k "explanation_status"); [discriminate|].
      destruct (kept_as_is v); [discriminate|].
      destruct v; try discriminate.
      intros [m [(Hc & Hq & ->)|(Hc & ->)]]%translate_value_raise_call.
      - left. by exists s, m.
      - right. by exists s, m. }
    destruct (String.eqb k "_validation") eqn:Ek;
      [|destruct (Hplain H) as [?|?]; [by left | by right; left]].
    destruct v; try (destruct (Hplain H) as [?|?]; [by left | by right; left]).
    apply String.eqb_eq in Ek as ->.
    unfold bind_m in H.
    destruct (translate_validation target d [] w1) as [[tv|e0] w2] eqn:Hv;
      [discriminate|].
    injection H as <- <-.
    apply for_items_raise in Hv
      as (pre' & sk & sv & post' & built' & w3 & Hvd & Hpre' & Hv).
    unfold translate_validation_item in Hv.
    destruct (translatable_reason sk sv) as [s|] eqn:Htr; [|discriminate].
    apply translatable_reason_Some in Htr as [-> ->].
    apply translate_reason_raise_call in Hv as (m & Hc & Hq & ->).
    right. right. exists d, pre', s, post', built', w3, m. by repeat split.
  - intros key s w0 Hne Hkept. cbv zeta.
    rewrite translate_item_string by done. apply translate_value_cases.
  - intros s w0 Htr. cbv zeta. unfold translate_validation_item. rewrite Htr.
    apply translate_reason_cases.
Qed.

(** X15. In the record [gpt_translate_text] returns, a [_validation] object
    has the keys of the input's, in the same order, and every entry other
    than a non-blank string [reason] is the input's. *)
Theorem gpt_translate_text_validation (record vd tr : dict) target w w' :
  dict_wf record -> dict_wf vd ->
  dict_get "_validation" record = Some (VDict vd) ->
  gpt_translate_text record target w = (Ret tr, w') ->
  exists vd',
    dict_get "_validation" tr = Some (VDict vd')
    /\ dict_keys vd' = dict_keys vd
    /\ forall sk sv, dict_get sk vd = Some sv ->
         translatable_reason sk sv = None -> dict_get sk vd' = Some sv.
Proof.
  intros Hwf Hwfvd Hvd Hrun. unfold gpt_translate_text, translate_items in Hrun.
  destruct (for_items_get _ _ _ _ _ _ Hrun "_validation") as [_ Hin].
  destruct (Hin Hwf _ (dict_get_Some_elem _ _ _ Hvd)) as (x & w1 & w2 & Hx & Hget).
  apply translate_item_validation in Hx as (tv & -> & Htv).
  exists tv. split; [done|]. split.
  - by apply (for_items_keys _ _ _ _ _ _ Htv).
  - intros sk sv Hsk Hnone.
    rewrite (for_items_unchanged _ _ _ _ _ sk Hwfvd Htv); [done|].
    intros v Hv w3 x w4. rewrite Hsk in Hv. injection Hv as <-.
    rewrite translate_validation_item_kept by done. by intros [= <- _].
Qed.
End TranslatorMore.

(** ** More on the batch runner *)

Section PoolMore.
Context `{RT : Runtime}.

Lemma collect_ret_inv (futures : list (res dict)) (order : list nat)
    (results : list (option dict)) :
  raised (collect futures order results) = None ->
  forall j, j ∈ order -> j < length futures ->
            exists r, futures !! j = Some (Ret r).
Proof.
  revert results. induction order as [|idx order IH]; intros results Hnone j Hj Hlt.
  - by apply elem_of_nil in Hj.
  - simpl in Hnone. destruct (futures !! idx) as [[r|e]|] eqn:Hidx.
    + apply elem_of_cons in Hj as [->|Hj]; [eauto|]. by eapply IH.
    + by destruct e.
    + apply elem_of_cons in Hj as [->|Hj]; [|by eapply IH].
      apply lookup_ge_None_1 in Hidx. lia.
Qed.

Lemma submit_all_length (records : list dict) (tw : nat -> World) :
  length (submit_all records tw) = length records.
Proof. unfold submit_all. apply length_imap. Qed.

(** a batch whose calls all return is returned whole, in input order *)
Lemma pool_all_return (records : list dict) (max_workers : Z) (sched : schedule) :
  (0 < max_workers)%Z ->
  completion_order sched ≡ₚ seq 0 (length records) ->
  (forall j rec, records !! j = Some rec ->
     exists out, fst (validate_record rec (task_world sched j)) = Ret out) ->
  exists results,
    process_records_parallel records max_workers sched = Ret results
    /\ length results = length records
    /\ forall j rec out,
         records !! j = Some rec ->
         fst (validate_record rec (task_world sched j)) = Ret out ->
         results !! j = Some (Some out).
Proof.
  intros Hw Hperm Hall.
  assert (Hin : forall j, j ∈ completion_order sched <-> j < length records).
  { intros j. rewrite Hperm, elem_of_seq. lia. }
  destruct (collect_prefix (submit_all records (task_world sched))
              (completion_order sched) [] (replicate (length records) None))
    as (results & Hc & Hlen & Hget).
  { intros j Hj%Hin. destruct (lookup_lt_is_Some_2 records j Hj) as [rec Hrec].
    destruct (Hall _ _ Hrec) as [out Hout].
    exists out. by rewrite (submit_all_lookup _ _ _ _ Hrec), Hout. }
  rewrite app_nil_r in Hc. rewrite length_replicate in Hlen.
  exists results. unfold process_records_parallel, pool_exit.
  destruct (Z.leb_spec max_workers 0); [lia|].
  rewrite Hc. simpl. split; [done|]. split; [done|].
  intros j rec out Hrec Hout. destruct (Hget j) as [_ Hstored].
  apply Hstored.
  - apply Hin. by eapply lookup_lt_Some.
  - rewrite length_replicate. by eapply lookup_lt_Some.
  - by rewrite (submit_all_lookup _ _ _ _ Hrec), Hout.
Qed.

(** X16. The exception [process_records_parallel] raises is that of the
    first future to fail in completion order, whatever its index and
    whatever its kind; cancellation is requested only when it is the quota
    signal. *)
Theorem process_records_parallel_first_failure (records : list dict)
    (max_workers : Z) (sched : schedule) (pre post : list nat) (idx : nat)
    (rec : dict) (e : exn) :
  (0 < max_workers)%Z ->
  completion_order sched = (pre ++ idx :: post)%list ->
  (forall j, j ∈ pre ->
     exists rec_j out, records !! j = Some rec_j
       /\ fst (validate_record rec_j (task_world sched j)) = Ret out) ->
  records !! idx = Some rec ->
  fst (validate_record rec (task_world sched idx)) = Raise e ->
  process_records_parallel records max_workers sched = Raise e
  /\ (cancel_requested (pool_exit records sched) = true
      <-> exists m, e = QuotaExceededException m).
Proof.
  intros Hw Horder Hpre Hidx Hraise.
  destruct (collect_prefix (submit_all records (task_world sched))
              pre (idx :: post) (replicate (length records) None))
    as (results & Hc & _ & _).
  { intros j Hj. destruct (Hpre j Hj) as (rec_j & out & Hrec & Hout).
    exists out. by rewrite (submit_all_lookup _ _ _ _ Hrec), Hout. }
  assert (Hexit : raised (pool_exit records sched) = Some e
                  /\ (cancel_requested (pool_exit records sched) = true
                      <-> exists m, e = QuotaExceededException m)).
  { unfold pool_exit. rewrite Horder, Hc. simpl.
    rewrite (submit_all_lookup _ _ _ _ Hidx), Hraise.
    destruct e; simpl; (split; [done|]); split; try discriminate; eauto;
      intros [m [=]]. }
  destruct Hexit as [Hraised Hcancel]. split; [|exact Hcancel].
  unfold process_records_parallel.
  destruct (Z.leb_spec max_workers 0); [lia|]. by rewrite Hraised.
Qed.

(** X17. A list [process_records_parallel] returns has no empty slot: it
    is as long as the input and every element is the result of
    [validate_record] for the record at its index, which therefore
    returned. *)
Theorem process_records_parallel_returned (records : list dict)
    (max_workers : Z) (sched : schedule) (results : list (option dict)) :
  completion_order sched ≡ₚ seq 0 (length records) ->
  process_records_parallel records max_workers sched = Ret results ->
  (0 < max_workers)%Z
  /\ length results = length records
  /\ forall i rec, records !! i = Some rec ->
       exists out, fst (validate_record rec (task_world sched i)) = Ret out
                   /\ results !! i = Some (Some out).
Proof.
  intros Hperm Hrun. unfold process_records_parallel in Hrun.
  destruct (Z.leb_spec max_workers 0) as [|Hw]; [discriminate|].
  split; [done|].
  destruct (raised (pool_exit records sched)) as [e|] eqn:Hraised; [discriminate|].
  injection Hrun as <-.
  assert (Hall : forall j rec, records !! j = Some rec ->
            exists out, fst (validate_record rec (task_world sched j)) = Ret out).
  { intros j rec Hrec.
    destruct (collect_ret_inv _ _ _ Hraised j) as [r Hr].
    - rewrite Hperm, elem_of_seq. apply lookup_lt_Some in Hrec. lia.
    - rewrite submit_all_length. by eapply lookup_lt_Some.
    - rewrite (submit_all_lookup _ _ _ _ Hrec) in Hr. injection Hr as Hr. eauto. }
  destruct (pool_all_return records max_workers sched Hw Hperm Hall)
    as (results & Hrun & Hlen & Hget).
  unfold process_records_parallel in Hrun.
  destruct (Z.leb_spec max_workers 0); [lia|]. rewrite Hraised in Hrun.
  injection Hrun as ->. split; [done|].
  intros i rec Hrec. destruct (Hall _ _ Hrec) as [out Hout].
  exists out. split; [done|]. by eapply Hget.
Qed.
End PoolMore.

(** ** The caller *)

Section AppFacts.
Context `{RT : Runtime}.

Lemma validate_batches_app (data : list dict) (sched : nat -> schedule)
    (l1 l2 : list nat) (processed : list (option dict)) :
  validate_batches data sched (l1 ++ l2)%list processed =
  match validate_batches data sched l1 processed with
  | (p, None) => validate_batches data sched l2 p
  | r => r
  end.
Proof.
  revert processed. induction l1 as [|i l1 IH]; intros processed; simpl; [done|].
  by destruct (process_records_parallel _ _ _).
Qed.

Lemma batch_lookup (data : list dict) (b j : nat) :
  j < batch_size ->
  take batch_size (drop (b * batch_size) data) !! j = data !! (b * batch_size + j).
Proof. intros Hj. rewrite lookup_take_lt by done. apply lookup_drop. Qed.

(** the first [n] batches, when all their calls return *)
Lemma validate_batches_prefix (data : list dict) (sched : nat -> schedule) (n : nat) :
  (forall b, b < n ->
     completion_order (sched (b * batch_size))
     ≡ₚ seq 0 (length (take batch_size (drop (b * batch_size) data)))) ->
  (forall b j rec, b < n -> j < batch_size ->
     data !! (b * batch_size + j) = Some rec ->
     exists out,
       fst (validate_record rec (task_world (sched (b * batch_size)) j)) = Ret out) ->
  exists processed,
    validate_batches data sched (map (fun b => b * batch_size) (seq 0 n)) []
      = (processed, None)
    /\ length processed = min (n * batch_size) (length data)
    /\ forall b j rec out, b < n -> j < batch_size ->
         data !! (b * batch_size + j) = Some rec ->
         fst (validate_record rec (task_world (sched (b * batch_size)) j)) = Ret out ->
         processed !! (b * batch_size + j) = Some (Some out).
Proof.
  induction n as [|n IH]; intros Hperm Hret.
  - exists []. split; [done|]. split; [done|]. intros; lia.
  - destruct IH as (p & Hp & Hlen & Hget).
    { intros b Hb. apply Hperm. lia. }
    { intros b j rec Hb. apply Hret. lia. }
    destruct (pool_all_return (take batch_size (drop (n * batch_size) data))
                (Z.of_nat batch_size) (sched (n * batch_size)))
      as (rs & Hrun & Hrlen & Hrget).
    { done. }
    { apply Hperm. lia. }
    { intros j rec Hj. assert (j < batch_size).
      { apply lookup_lt_Some in Hj. rewrite length_take in Hj. lia. }
      rewrite batch_lookup in Hj by done. apply (Hret n j rec); [lia|done..]. }
    exists (p ++ rs)%list. split; [|split].
    + rewrite seq_S, map_app, validate_batches_app, Hp. simpl. by rewrite Hrun.
    + rewrite length_app, Hlen, Hrlen, length_take, length_drop.
      unfold batch_size. lia.
    + intros b j rec out Hb Hj Hrec Hout.
      pose proof (lookup_lt_Some _ _ _ Hrec) as Hlt.
      destruct (decide (b < n)) as [Hbn|Hbn].
      * rewrite lookup_app_l; [by eapply Hget|].
        rewrite Hlen. unfold batch_size in *. lia.
      * assert (b = n) as -> by lia.
        rewrite lookup_app_r by (rewrite Hlen; unfold batch_size in *; lia).
        replace (n * batch_size + j - length p) with j
          by (rewrite Hlen; unfold batch_size in *; lia).
        apply (Hrget j rec); [|done]. by rewrite batch_lookup.
Qed.

Lemma translate_all_app (l1 l2 : list (option dict)) (en : list dict) (w : World) :
  translate_all (l1 ++ l2)%list en w =
  match translate_all l1 en w with
  | (en1, None, w1) => translate_all l2 en1 w1
  | r => r
  end.
Proof.
  revert en w. induction l1 as [|[rec|] l1 IH]; intros en w; simpl; [done| |done].
  by destruct (gpt_translate_text rec "English" w) as [[tr|e] w1].
Qed.

Lemma translate_all_length (l : list (option dict)) (en en' : list dict)
    (w w' : World) :
  translate_all l en w = (en', None, w') -> length en' = length en + length l.
Proof.
  revert en w. induction l as [|[rec|] l IH]; intros en w; simpl.
  - intros [= <- _]. lia.
  - destruct (gpt_translate_text rec "English" w) as [[tr|e] w1]; [|discriminate].
    intros H%IH. rewrite length_app in H. simpl in H. lia.
  - discriminate.
Qed.

(** with every slot filled, the translation loop is left by the quota
    signal or not at all *)
Lemma translate_all_end (l : list (option dict)) (en en' : list dict)
    (w w' : World) (oe : option exn) :
  Forall is_Some l ->
  translate_all l en w = (en', oe, w') ->
  oe = None \/ exists m, oe = Some (QuotaExceededException m).
Proof.
  intros Hall. revert en w.
  induction Hall as [|r l [rec ->] _ IH]; intros en w; simpl.
  - intros [= _ <- _]. by left.
  - destruct (gpt_translate_text rec "English" w) as [[tr|e] w1] eqn:Hrun.
    + apply IH.
    + intros [= _ <- _]. right.
      apply gpt_translate_text_raise in Hrun as [m ->]. eauto.
Qed.

Lemma batch_count (total n : nat) :
  n * batch_size < total -> S n <= (total + (batch_size - 1)) / batch_size.
Proof.
  intros H. apply Nat.div_le_lower_bound; unfold batch_size in *; lia.
Qed.

Lemma batch_count_covers (total : nat) :
  total <= (total + (batch_size - 1)) / batch_size * batch_size.
Proof.
  pose proof (Nat.div_mod_eq (total + (batch_size - 1)) batch_size) as Hdm.
  pose proof (Nat.mod_upper_bound (total + (batch_size - 1)) batch_size) as Hub.
  unfold batch_size in *. lia.
Qed.

(** X18. When every validation call of every batch returns, whatever the
    completion orders, the processing block stores in [processed_data] a
    list as long as the uploaded data whose element at each index is the
    validator's result for the record at that index; the run then ends
    normally or by the rerun of a translation quota stop, never by an
    uncaught exception. *)
Theorem start_processing_order (data : list dict) (sched : nat -> schedule)
    (st : session) (w : World) :
  (forall b,
     completion_order (sched (b * batch_size))
     ≡ₚ seq 0 (length (take batch_size (drop (b * batch_size) data)))) ->
  (forall b j rec, j < batch_size ->
     data !! (b * batch_size + j) = Some rec ->
     exists out,
       fst (validate_record rec (task_world (sched (b * batch_size)) j)) = Ret out) ->
  exists processed,
    processed_data (snd (fst (start_processing data sched st w))) = Some processed
    /\ length processed = length data
    /\ (forall b j rec out, j < batch_size ->
          data !! (b * batch_size + j) = Some rec ->
          fst (validate_record rec (task_world (sched (b * batch_size)) j)) = Ret out ->
          processed !! (b * batch_size + j) = Some (Some out))
    /\ forall e, fst (fst (start_processing data sched st w)) <> Uncaught e.
Proof.
  intros Hperm Hret.
  destruct (validate_batches_prefix data sched
              ((length data + (batch_size - 1)) / batch_size))
    as (p & Hp & Hlen & Hget).
  { intros b _. apply Hperm. }
  { intros b j rec _. apply Hret. }
  assert (Hlen' : length p = length data).
  { rewrite Hlen. pose proof (batch_count_covers (length data)). lia. }
  assert (Hget' : forall b j rec out, j < batch_size ->
            data !! (b * batch_size + j) = Some rec ->
            fst (validate_record rec (task_world (sched (b * batch_size)) j)) = Ret out ->
            p !! (b * batch_size + j) = Some (Some out)).
  { intros b j rec out Hj Hrec Hout. apply (Hget b j rec out); try done.
    apply lookup_lt_Some in Hrec.
    destruct (decide (b < (length data + (batch_size - 1)) / batch_size)) as [|Hge];
      [done|].
    pose proof (batch_count (length data) b). unfold batch_size in *. lia. }
  assert (Hfull : Forall is_Some p).
  { apply Forall_lookup. intros i r Hi.
    pose proof (lookup_lt_Some _ _ _ Hi) as Hlt. rewrite Hlen' in Hlt.
    destruct (lookup_lt_is_Some_2 data i Hlt) as [rec Hrec].
    pose proof (Nat.div_mod_eq i batch_size) as Hdm.
    pose proof (Nat.mod_upper_bound i batch_size) as Hub.
    assert (Hi' : i = i / batch_size * batch_size + i mod batch_size)
      by (unfold batch_size in *; lia).
    rewrite Hi' in Hrec, Hi.
    destruct (Hret _ _ _ (Hub ltac:(done)) Hrec) as [out Hout].
    rewrite (Hget' _ _ _ _ (Hub ltac:(done)) Hrec Hout) in Hi.
    injection Hi as <-. eauto. }
  exists p. unfold start_processing, batch_starts. rewrite Hp.
  destruct (translate_all p [] w) as [[en oe] w1] eqn:Htr.
  destruct (translate_all_end _ _ _ _ _ _ Hfull Htr) as [->|[m ->]]; simpl;
    repeat split; done.
Qed.

(** X19. When the batch that starts at record [n * 5] is the first to raise
    the quota signal, the block stores the message in [quota_exceeded] and
    in [processed_data] the results of the [n * 5] records of the batches
    before it, each at its index; nothing of the interrupted batch is
    stored, translation does not start, and the run ends by a rerun. *)
Theorem start_processing_quota_stop (data : list dict) (sched : nat -> schedule)
    (st : session) (w : World) (n : nat) (m : string) :
  n * batch_size < length data ->
  (forall b, b < n ->
     completion_order (sched (b * batch_size))
     ≡ₚ seq 0 (length (take batch_size (drop (b * batch_size) data)))) ->
  (forall b j rec, b < n -> j < batch_size ->
     data !! (b * batch_size + j) = Some rec ->
     exists out,
       fst (validate_record rec (task_world (sched (b * batch_size)) j)) = Ret out) ->
  process_records_parallel (take batch_size (drop (n * batch_size) data))
    (Z.of_nat batch_size) (sched (n * batch_size))
    = Raise (QuotaExceededException m) ->
  exists processed,
    start_processing data sched st w
      = (Rerun, Session (Some m) (Some processed) (processed_en_data st), w)
    /\ length processed = n * batch_size
    /\ forall b j rec out, b < n -> j < batch_size ->
         data !! (b * batch_size + j) = Some rec ->
         fst (validate_record rec (task_world (sched (b * batch_size)) j)) = Ret out ->
         processed !! (b * batch_size + j) = Some (Some out).
Proof.
  intros Hn Hperm Hret Hquota.
  destruct (validate_batches_prefix data sched n Hperm Hret) as (p & Hp & Hlen & Hget).
  exists p. split; [|split; [lia | exact Hget]].
  unfold start_processing, batch_starts.
  pose proof (batch_count _ _ Hn) as Hcount.
  replace ((length data + (batch_size - 1)) / batch_size)
    with (n + S ((length data + (batch_size - 1)) / batch_size - S n)) by lia.
  rewrite seq_app, map_app, validate_batches_app, Hp. simpl.
  by rewrite Hquota.
Qed.

(** X20. When translation hits the quota (or an authentication error) at a
    record, after the records before it were translated, the block stores
    the message, the whole validated list and the translations made so
    far, one per earlier record, and the run ends by a rerun. *)
Theorem start_processing_translation_stop (data : list dict)
    (sched : nat -> schedule) (st : session) (w w1 w2 : World)
    (processed : list (option dict)) (pre post : list dict) (rec : dict)
    (translated : list dict) (m : string) :
  validate_batches data sched (batch_starts (length data)) [] = (processed, None) ->
  processed = (map Some pre ++ Some rec :: map Some post)%list ->
  translate_all (map Some pre) [] w = (translated, None, w1) ->
  gpt_translate_text rec "English" w1 = (Raise (QuotaExceededException m), w2) ->
  start_processing data sched st w
    = (Rerun, Session (Some m) (Some processed) (Some translated), w2)
  /\ length translated = length pre.
Proof.
  intros Hval -> Hpre Hrec. split.
  - unfold start_processing. rewrite Hval, translate_all_app, Hpre. simpl.
    by rewrite Hrec.
  - apply translate_all_length in Hpre. rewrite length_map in Hpre. by simpl in Hpre.
Qed.

Lemma validation_flag_get (out validation : dict) (key : string) (dflt : value) :
  dict_get "_validation" out = Some (VDict validation) ->
  validation_flag (Some out) key dflt = Ret (dict_get_default key dflt validation).
Proof. intros H. unfold validation_flag, dict_get_default at 1. by rewrite H. Qed.

(** how a record returned by [validate_record] counts in the summary *)
Lemma validated_counts (record out : dict) (w w' : World) :
  validate_record record w = (Ret out, w') ->
  counts_failed (Some out) = Ret false
  /\ ((counts_valid (Some out) = Ret true /\ counts_corrected (Some out) = Ret false)
      \/ (counts_valid (Some out) = Ret false /\ counts_corrected (Some out) = Ret true)).
Proof.
  intros (result & _ & [-> | ->])%validate_record_ret_inv.
  - unfold counts_failed, counts_valid, counts_corrected.
    rewrite !(validation_flag_get _ [("valid", VBool true); ("reason", dict_get_default "reason" VNull result)])
      by (rewrite dict_get_set_ne by done; apply dict_get_set_eq).
    split; [done | by left].
  - unfold counts_failed, counts_valid, counts_corrected.
    rewrite !(validation_flag_get _ [("valid", VBool false); ("reason", dict_get_default "reason" VNull result); ("corrected", VBool true)])
      by apply dict_get_set_eq.
    split; [done | by right].
Qed.

(** X21. For a list of records returned by [validate_record], the summary
    counts every record as valid or as corrected and none as failed: the
    third figure is [0], also when the calls failed. *)
Theorem summary_no_failed (processed : list (option dict)) :
  (forall r, r ∈ processed ->
     exists record out w w', r = Some out
       /\ validate_record record w = (Ret out, w')) ->
  exists valid corrected,
    summary processed = Ret (valid, corrected, 0)
    /\ valid + corrected = length processed.
Proof.
  intros Hall.
  assert (Hcount : exists valid corrected,
            count_records counts_valid processed = Ret valid
            /\ count_records counts_corrected processed = Ret corrected
            /\ count_records counts_failed processed = Ret 0
            /\ valid + corrected = length processed).
  { induction processed as [|r processed IH].
    - by exists 0, 0.
    - destruct IH as (v & c & Hv & Hc & Hf & Hsum).
      { intros r' Hr'. apply Hall. by right. }
      destruct (Hall r) as (record & out & w & w' & -> & Hrun); [left|].
      destruct (validated_counts _ _ _ _ Hrun) as [Hfail [[Hva Hco]|[Hva Hco]]].
      + exists (S v), c. simpl count_records. rewrite Hva, Hco, Hfail, Hv, Hc, Hf.
        repeat split. simpl. lia.
      + exists v, (S c). simpl count_records. rewrite Hva, Hco, Hfail, Hv, Hc, Hf.
        repeat split. simpl. lia. }
  destruct Hcount as (v & c & Hv & Hc & Hf & Hsum).
  exists v, c. unfold summary. by rewrite Hv, Hc, Hf.
Qed.
End AppFacts.

(** ** The added properties on concrete inputs *)

#[local] Existing Instance Scripted.runtime.

Lemma extract_json_substring_span_witness :
  extract_json_substring ("Here it is: " ++ "{" ++ "a{b}c" ++ "}" ++ " Done.")
  = "{" ++ "a{b}c" ++ "}".
Proof.
  apply (extract_json_substring_span "Here it is: " "a{b}c" " Done.");
    reflexivity.
Defined.

Lemma map_record_fields_canonical_witness :
  dict_get "question"
    (map_record_fields (RT := Scripted.runtime) sum_record
       (get_key_map_for_language VNull)) = Some (VStr "2+2?")
  /\ (VStr "2+2?" = VStr "" \/ exists k, (k, VStr "2+2?") ∈ sum_record).
Proof.
  destruct (map_record_fields_canonical (RT := Scripted.runtime) sum_record VNull)
    as (_ & Horigin & _).
  split; [reflexivity|].
  exact (Horigin "question" (VStr "2+2?") eq_refl).
Defined.

Lemma map_record_fields_missing_witness :
  dict_get "question"
    (map_record_fields (RT := Scripted.runtime) Scripted.spanish_record
       (get_key_map_for_language VNull)) = Some (VStr "").
Proof.
  apply (map_record_fields_missing (RT := Scripted.runtime)
           Scripted.spanish_record VNull "question" "Question").
  - left.
  - intros k v Hin. apply list_elem_of_singleton in Hin. injection Hin as -> ->.
    split; [intros H; vm_compute in H; discriminate H|].
    intros alt Halt.
    apply elem_of_cons in Halt as [->|Halt];
      [intros H; vm_compute in H; discriminate H|].
    apply list_elem_of_singleton in Halt as ->.
    intros H; vm_compute in H; discriminate H.
Defined.

Lemma map_field_fallback_redundant_witness :
  map_field (RT := Scripted.runtime) (normalize_record sum_record)
    "question" "Question" = VStr "2+2?".
Proof.
  rewrite (map_field_fallback_redundant (RT := Scripted.runtime) sum_record
             "question" "Question"); [reflexivity|].
  intros alt Halt. apply elem_of_cons in Halt as [->|Halt]; [reflexivity|].
  apply list_elem_of_singleton in Halt as ->. reflexivity.
Defined.

Lemma validate_record_frame_witness :
  dict_get "answer"
    [("question", VStr "2+2?"); ("answer", VStr "5"); ("Answer", VStr "4");
     ("explanation_status", VStr "Explanation is already correct.");
     ("_validation", flagged [("reason", VStr "2+2 is 4")])]
  = dict_get "answer" Scripted.lower_record.
Proof.
  destruct (validate_record_frame (RT := Scripted.runtime) Scripted.lower_record
              _ (Scripted.start [Ret (Some (Scripted.text_fix "4"))])
              (Scripted.start []) eq_refl) as [Hframe _].
  apply Hframe; discriminate.
Defined.

Lemma validate_record_raises_witness :
  (exists m, AttributeError "'list' object has no attribute 'get'"
             = QuotaExceededException m)
  \/ (AttributeError "'list' object has no attribute 'get'"
      = no_attribute
          (map_field (RT := Scripted.runtime) (normalize_record sum_record)
                     "question_type" "Question Type") "lower"
      /\ Scripted.start [] = Scripted.start [Ret (Some "[]")]
      /\ forall s, map_field (RT := Scripted.runtime) (normalize_record sum_record)
                     "question_type" "Question Type" <> VStr s)
  \/ (exists v, Scripted.outcome sum_record [Ret (Some "[]")]
                  = (Ret v, Scripted.start [])
                /\ is_dict v = false
                /\ AttributeError "'list' object has no attribute 'get'"
                   = no_attribute v "get").
Proof.
  exact (validate_record_raises (RT := Scripted.runtime) sum_record
           (Scripted.start [Ret (Some "[]")]) (Scripted.start []) _ eq_refl).
Defined.

Lemma validate_record_question_type_witness :
  Scripted.validate Scripted.numbered_record [Ret (Some Scripted.text_valid)]
  = (Raise (AttributeError "'int' object has no attribute 'lower'"),
     Scripted.start [Ret (Some Scripted.text_valid)]).
Proof.
  apply (validate_record_question_type (RT := Scripted.runtime)
           Scripted.numbered_record).
  intros s H. vm_compute in H. discriminate H.
Defined.

Lemma validate_record_degraded_witness :
  Scripted.validate sum_record
    [Raise (AuthenticationError "Incorrect API key provided")]
  = (Ret Scripted.sum_refused, Scripted.start []).
Proof.
  exact (validate_record_degraded (RT := Scripted.runtime) sum_record
           "Authentication error: Incorrect API key provided"
           (Scripted.start [Raise (AuthenticationError "Incorrect API key provided")])
           (Scripted.start []) eq_refl).
Defined.

Lemma bare_record_wf : dict_wf Scripted.bare_record.
Proof. distinct_keys. Defined.

Lemma gpt_translate_text_nothing_to_translate_witness :
  Scripted.translate Scripted.bare_record
    [Raise (RateLimitError Scripted.quota_message)]
  = (Ret Scripted.bare_record,
     Scripted.start [Raise (RateLimitError Scripted.quota_message)]).
Proof.
  apply (gpt_translate_text_nothing_to_translate (RT := Scripted.runtime)
           Scripted.bare_record "English"); [exact bare_record_wf|].
  intros k v Hin.
  apply elem_of_cons in Hin as [[= -> ->]|Hin];
    [right; left; split; [reflexivity | discriminate]|].
  apply elem_of_cons in Hin as [[= -> ->]|Hin];
    [right; left; split; [reflexivity | discriminate]|].
  apply elem_of_cons in Hin as [[= -> ->]|Hin].
  - right. right. split; [reflexivity|].
    exists [("valid", VBool true); ("reason", VNull)].
    split; [reflexivity|]. split; [distinct_keys|].
    intros sk sv Hsk.
    apply elem_of_cons in Hsk as [[= -> ->]|Hsk]; [reflexivity|].
    apply list_elem_of_singleton in Hsk. injection Hsk as -> ->. reflexivity.
  - apply list_elem_of_singleton in Hin. injection Hin as -> ->. by left.
Defined.

Lemma gpt_translate_text_raises_on_call_witness :
  (exists pre key val post built w1,
    Scripted.processed_record = (pre ++ (key, val) :: post)%list
    /\ translate_items "English" pre []
         (Scripted.start [Ret (Some "What is 2+2?");
                          Raise (RateLimitError "insufficient_quota")])
       = (Ret built, w1)
    /\ ((exists s m,
            val = VStr s
            /\ chat_create (field_request "English" s) w1
               = (Raise (RateLimitError m), Scripted.start [])
            /\ is_quota m = true
            /\ QuotaExceededException "Translation quota exceeded: insufficient_quota"
               = QuotaExceededException ("Translation quota exceeded: " ++ m))
        \/ (exists s m,
               val = VStr s
               /\ chat_create (field_request "English" s) w1
                  = (Raise (AuthenticationError m), Scripted.start [])
               /\ QuotaExceededException "Translation quota exceeded: insufficient_quota"
                  = QuotaExceededException
                      ("Authentication error during translation: " ++ m))
        \/ (exists vd pre' s post' built' w2 m,
               key = "_validation" /\ val = VDict vd
               /\ vd = (pre' ++ ("reason", VStr s) :: post')%list
               /\ translate_validation "English" pre' [] w1 = (Ret built', w2)
               /\ chat_create (reason_request "English" s) w2
                  = (Raise (RateLimitError m), Scripted.start [])
               /\ is_quota m = true
               /\ QuotaExceededException "Translation quota exceeded: insufficient_quota"
                  = QuotaExceededException ("Translation quota exceeded: " ++ m))))
  /\ translate_item "English" "Answer" (VStr "cuatro")
       (Scripted.start [Raise (OtherException "Connection error.")])
     = (Ret (VStr "cuatro"), Scripted.start [])
  /\ translate_validation_item "English" "reason" (VStr "Suma incorrecta")
       (Scripted.start [Raise (AuthenticationError "Incorrect API key provided")])
     = (Ret (VStr "Suma incorrecta"), Scripted.start []).
Proof.
  destruct (gpt_translate_text_raises_on_call (RT := Scripted.runtime)
              Scripted.processed_record "English"
              (Scripted.start [Ret (Some "What is 2+2?");
                               Raise (RateLimitError "insufficient_quota")]))
    as (Hraise & Hfield & Hreason).
  split; [exact (Hraise _ (Scripted.start []) eq_refl)|]. split.
  - exact (Hfield "Answer" "cuatro"
             (Scripted.start [Raise (OtherException "Connection error.")])
             ltac:(discriminate) eq_refl).
  - exact (Hreason "Suma incorrecta"
             (Scripted.start [Raise (AuthenticationError "Incorrect API key provided")])
             eq_refl).
Defined.

Lemma gpt_translate_text_validation_witness :
  exists vd',
    dict_get "_validation"
      [("Question", VStr "What is 2+2?");
       ("Grade", VInt 3);
       ("Explanation", VStr "  ");
       ("_validation", VDict [("valid", VBool true); ("reason", VStr "correct")]);
       ("explanation_status", VStr "Answer is correct.")]
    = Some (VDict vd')
    /\ dict_keys vd' = ["valid"; "reason"]%list
    /\ forall sk sv,
         dict_get sk [("valid", VBool true); ("reason", VStr "correcto")] = Some sv ->
         translatable_reason (RT := Scripted.runtime) sk sv = None ->
         dict_get sk vd' = Some sv.
Proof.
  apply (gpt_translate_text_validation (RT := Scripted.runtime)
           Scripted.processed_record
           [("valid", VBool true); ("reason", VStr "correcto")] _ "English"
           (Scripted.start [Ret (Some "What is 2+2?"); Ret (Some "correct")])
           (Scripted.start [])).
  - exact processed_record_wf.
  - distinct_keys.
  - reflexivity.
  - reflexivity.
Defined.

Lemma process_records_parallel_first_failure_witness :
  Scripted.parallel [sum_record; sum_record] Scripted.array_first
  = Raise (AttributeError "'list' object has no attribute 'get'")
  /\ cancel_requested (pool_exit [sum_record; sum_record] Scripted.array_first)
     <> true.
Proof.
  destruct (process_records_parallel_first_failure (RT := Scripted.runtime)
              [sum_record; sum_record] 5 Scripted.array_first
              [] [0] 1 sum_record
              (AttributeError "'list' object has no attribute 'get'"))
    as [Hraise Hcancel].
  - reflexivity.
  - reflexivity.
  - intros j Hj. by apply elem_of_nil in Hj.
  - reflexivity.
  - reflexivity.
  - split; [exact Hraise|]. intros H. apply Hcancel in H as [m H]. discriminate H.
Defined.

Lemma process_records_parallel_returned_witness :
  length [Some Scripted.sum_passed;
          Some [("Question", VStr "2+2?"); ("Answer", VStr "4");
                ("Question Type", VStr "short");
                ("explanation_status", VStr "Explanation is already correct.");
                ("_validation", flagged [("reason", VStr "2+2 is 4")])]]
  = length [sum_record; sum_record].
Proof.
  destruct (process_records_parallel_returned (RT := Scripted.runtime)
              [sum_record; sum_record] 5 Scripted.both_answered _
              (perm_swap 0 1 []) eq_refl) as (_ & Hlen & _).
  exact Hlen.
Defined.

Lemma six_records_lookup (i : nat) (rec : dict) :
  Scripted.six_records !! i = Some rec -> rec = sum_record.
Proof.
  unfold Scripted.six_records. intros H. by apply lookup_replicate in H as [-> _].
Defined.

Lemma start_processing_order_witness :
  exists processed,
    processed_data
      (snd (fst (start_processing (RT := Scripted.runtime) Scripted.six_records
                   Scripted.all_answered Scripted.fresh_session (Scripted.start []))))
    = Some processed
    /\ length processed = 6.
Proof.
  destruct (start_processing_order (RT := Scripted.runtime) Scripted.six_records
              Scripted.all_answered Scripted.fresh_session (Scripted.start []))
    as (processed & Hdata & Hlen & _).
  - intros b. reflexivity.
  - intros b j rec _ Hrec. apply six_records_lookup in Hrec as ->.
    eexists. reflexivity.
  - exists processed. split; [exact Hdata | exact Hlen].
Defined.

Lemma start_processing_quota_stop_witness :
  exists processed,
    start_processing (RT := Scripted.runtime) Scripted.six_records
      Scripted.quota_in_second Scripted.fresh_session (Scripted.start [])
    = (Rerun,
       Session (Some "OpenAI API quota exceeded: You exceeded your current quota")
               (Some processed) None,
       Scripted.start [])
    /\ length processed = 5.
Proof.
  destruct (start_processing_quota_stop (RT := Scripted.runtime)
              Scripted.six_records Scripted.quota_in_second Scripted.fresh_session
              (Scripted.start []) 1
              "OpenAI API quota exceeded: You exceeded your current quota")
    as (processed & Hrun & Hlen & _).
  - unfold batch_size. simpl. lia.
  - intros b Hb. assert (b = 0) as -> by lia. reflexivity.
  - intros b j rec Hb _ Hrec. assert (b = 0) as -> by lia.
    apply six_records_lookup in Hrec as ->. eexists. reflexivity.
  - reflexivity.
  - exists processed. split; [exact Hrun | exact Hlen].
Defined.

Lemma start_processing_translation_stop_witness :
  start_processing (RT := Scripted.runtime) [sum_record]
    Scripted.one_answered Scripted.fresh_session
    (Scripted.start [Raise (AuthenticationError "Incorrect API key provided")])
  = (Rerun,
     Session
       (Some "Authentication error during translation: Incorrect API key provided")
       (Some [Some Scripted.sum_passed]) (Some []),
     Scripted.start []).
Proof.
  exact (proj1 (start_processing_translation_stop (RT := Scripted.runtime)
           [sum_record] Scripted.one_answered Scripted.fresh_session
           (Scripted.start [Raise (AuthenticationError "Incorrect API key provided")])
           (Scripted.start [Raise (AuthenticationError "Incorrect API key provided")])
           (Scripted.start [])
           [Some Scripted.sum_passed] [] [] Scripted.sum_passed []
           "Authentication error during translation: Incorrect API key provided"
           eq_refl eq_refl eq_refl eq_refl)).
Defined.

Lemma summary_no_failed_witness :
  exists valid corrected,
    summary [Some Scripted.sum_passed; Some Scripted.sum_refused]
      = Ret (valid, corrected, 0)
    /\ valid + corrected = 2.
Proof.
  apply (summary_no_failed (RT := Scripted.runtime)
           [Some Scripted.sum_passed; Some Scripted.sum_refused]).
  intros r Hr. apply elem_of_cons in Hr as [->|Hr].
  - exists sum_record, Scripted.sum_passed,
      (Scripted.start [Ret (Some Scripted.text_valid)]), (Scripted.start []).
    split; reflexivity.
  - apply list_elem_of_singleton in Hr as ->.
    exists sum_record, Scripted.sum_refused,
      (Scripted.start [Raise (AuthenticationError "Incorrect API key provided")]),
      (Scripted.start []).
    split; reflexivity.
Defined.

(** ** The validation call and the runner on inputs that leave the quota aside *)



(** C6 fails as stated: a batch of one record whose question type is a
    number is processed without any quota signal (the only call raises
    [AttributeError]), and [process_records_parallel] raises that exception
    and returns no list. *)
Lemma process_records_parallel_order_counterexample :
  completion_order (Scripted.one_answered 0)
    = seq 0 (length [Scripted.numbered_record])
  /\ exists e,
       fst (validate_record Scripted.numbered_record
              (task_world (Scripted.one_answered 0) 0)) = Raise e
       /\ e = AttributeError "'int' object has no attribute 'lower'"
       /\ (~ exists m, e = QuotaExceededException m)
       /\ Scripted.parallel [Scripted.numbered_record] (Scripted.one_answered 0)
          = Raise e
       /\ ~ exists results,
             Scripted.parallel [Scripted.numbered_record] (Scripted.one_answered 0)
             = Ret results.
Proof.
  split; [reflexivity|]. eexists. split; [reflexivity|]. split; [reflexivity|].
  split; [intros [m H]; discriminate H|]. split; [reflexivity|].
  intros [results H]. discriminate H.
Qed.
